(** * AudioLabStudio: the multi-stem render pipeline

    A shallow embedding of [renderMix] (server/services/dspRenderer.ts) and of
    [AudioProcessor.analyzeAudio] (the metadata probe), with the properties of
    the render-pipeline specification stated over it. The second part covers
    the functions beside them, [analyzeAudioFile], [processAudio],
    [mixAudioFiles], [convertToWav], [testFFmpegInstallation] and
    [runCommand], and [checkSystemRequirements], which calls the last two.

    Conventions of the embedding.
    - A JavaScript [number] is an IEEE 754 binary64 value, here a primitive
      [float]; [+], [-], [<=], [===] on numbers are the float operations.
    - A JavaScript string is a [string]; template literals and [+=] are [++].
    - [Number.prototype.toString], [Buffer.prototype.toString], [JSON.parse],
      [parseFloat], [parseInt] and [path.dirname] belong to the runtime: they
      are variables of the sections below, never assumed to have any property.
      [Node.Buffer_toString] is the decoding that [toString] performs on a
      chunk, for the statements that are about the bytes of a stream.
    - A spawned child process is the list of events it emits, in order; the
      promise executor is the fold of the registered listeners over that list,
      and a promise keeps the first settlement it receives.
    - Calls to [logger] do not influence any result and are left out. *)

From Stdlib Require Import String Ascii List ZArith Lia Bool Floats DecimalString DecimalNat.
Import ListNotations.
Open Scope string_scope.

(** ** JavaScript runtime values *)

Module JS.

Definition number := float.
Bind Scope float_scope with number.

(** [ToBoolean] on a number: [+0], [-0] and [NaN] are falsy. *)
Definition falsy (x : number) : bool := is_zero x || is_nan x.

(** [x || d] on numbers. *)
Definition or_else (x d : number) : number := if falsy x then d else x.

(** [x !== y] on numbers. *)
Definition strict_neq (x y : number) : bool := negb (x =? y)%float.

(** [`${n}`] for an array index or an array length. *)
Definition nat_toString (n : nat) : string :=
  NilEmpty.string_of_uint (Nat.to_uint n).

(** [`${z}`] for an integer such as a process exit code. *)
Definition int_toString (z : Z) : string :=
  NilZero.string_of_int (Z.to_int z).

(** [Array.prototype.join] with separator [sep]. *)
Definition join (sep : string) (l : list string) : string :=
  String.concat sep l.

(** An error object: [new Error(message)] or an error made by the runtime. *)
Record Error := mkError { name : string; message : string }.

Definition new_Error (msg : string) : Error := mkError "Error" msg.
Definition TypeError (msg : string) : Error := mkError "TypeError" msg.

(** The state of a promise: pending, or settled once and for all. *)
Inductive Settlement (A : Type) : Type :=
| Resolved (value : A)
| Rejected (reason : Error).
Arguments Resolved {A} value.
Arguments Rejected {A} reason.

Definition Promise (A : Type) := option (Settlement A).

(** [resolve]/[reject] called on a promise: only the first call counts. *)
Definition settle {A} (p : Promise A) (s : Settlement A) : Promise A :=
  match p with
  | Some _ => p
  | None => Some s
  end.

(** A chunk of a child's output stream. *)
Definition Buffer := list Byte.byte.

(** The events a [ChildProcess] emits. The exit code is [null] (here
    [None]) when the child was ended by a signal. *)
Inductive ChildEvent : Type :=
| StdoutData (chunk : Buffer)
| StderrData (chunk : Buffer)
| Close (code : option Z)
| ErrorEvent (error : Error).

(** [`${code}`] for an exit code. *)
Definition code_toString (code : option Z) : string :=
  match code with
  | Some z => int_toString z
  | None => "null"
  end.

(** [code === 0]. *)
Definition code_is_zero (code : option Z) : bool :=
  match code with
  | Some z => (z =? 0)%Z
  | None => false
  end.

End JS.

Import JS.
Bind Scope float_scope with number.

(** ** dspRenderer.ts: data *)

Record Stem := mkStem {
  filePath : string;
  volume : number;
  pan : number;
  effects : option (list string)
}.

Record Settings := mkSettings {
  sampleRate : number;
  bitDepth : number;
  format : string
}.

Record RenderOptions := mkRenderOptions {
  stems : list Stem;
  outputPath : string;
  settings : Settings
}.

(** ** dspRenderer.ts: the filter graph and the argument list *)

Section FilterGraph.

Variable Number_toString : number -> string.

(** Lines 44-45. *)
Definition stemVolume (stem : Stem) : number := or_else (volume stem) 1%float.
Definition stemPan (stem : Stem) : number := or_else (pan stem) 0%float.

(** Lines 50-51. *)
Definition leftGain (pan : number) : number :=
  if (pan <=? 0)%float then 1%float else (1 - pan)%float.
Definition rightGain (pan : number) : number :=
  if (0 <=? pan)%float then 1%float else (1 + pan)%float.

(** Lines 47-55: the text of the chain of one stem. *)
Definition stemFilter (index : nat) (stem : Stem) : string :=
  let volume := stemVolume stem in
  let pan := stemPan stem in
  let filter := "[" ++ nat_toString index ++ ":a]volume=" ++ Number_toString volume in
  let filter :=
    if strict_neq pan 0%float then
      filter ++ ",pan=stereo|FL=" ++ Number_toString (leftGain pan)
             ++ "*c0|FR=" ++ Number_toString (rightGain pan) ++ "*c1"
    else filter in
  filter ++ "[a" ++ nat_toString index ++ "]".

Definition audioLabel (index : nat) : string := "[a" ++ nat_toString index ++ "]".

(** Lines 43-58: the [forEach] over the stems, threading the two variables
    it updates, [filterComplex] and [audioLabels]. *)
Fixpoint stemsLoop (l : list Stem) (index : nat) (st : string * list string)
  : string * list string :=
  match l with
  | [] => st
  | stem :: rest =>
      stemsLoop rest (S index)
        (fst st ++ (stemFilter index stem ++ ";"), (snd st ++ [audioLabel index])%list)
  end.

(** Lines 40-66. *)
Definition buildFilterComplex (l : list Stem) : string :=
  let '(filterComplex, audioLabels) := stemsLoop l 0 ("", []) in
  if (1 <? length audioLabels)%nat then
    filterComplex ++ (join "" audioLabels ++ "amix=inputs="
                      ++ nat_toString (length audioLabels) ++ ":duration=longest[out]")
  else
    filterComplex ++ "[a0]acopy[out]".

(** Lines 35-37. *)
Fixpoint inputArgs (l : list Stem) (args : list string) : list string :=
  match l with
  | [] => args
  | stem :: rest => inputArgs rest (args ++ ["-i"; filePath stem])%list
  end.

(** Lines 72-78. *)
Definition formatArgs (s : Settings) (args : list string) : list string :=
  if String.eqb (format s) "wav" then
    ((args ++ ["-f"; "wav"])
       ++ ["-acodec"; ("pcm_s" ++ Number_toString (bitDepth s) ++ "le")%string])%list
  else if String.eqb (format s) "mp3" then
    ((args ++ ["-f"; "mp3"]) ++ ["-b:a"; "320k"])%list
  else args.

(** Lines 32-80: the argument list handed to [spawn]. *)
Definition buildArgs (options : RenderOptions) : list string :=
  let args := ["-y"] in
  let args := inputArgs (stems options) args in
  let filterComplex := buildFilterComplex (stems options) in
  let args := (args ++ ["-filter_complex"; filterComplex])%list in
  let args := (args ++ ["-map"; "[out]"])%list in
  let args := (args ++ ["-ar"; Number_toString (sampleRate (settings options))])%list in
  let args := formatArgs (settings options) args in
  (args ++ [outputPath options])%list.

End FilterGraph.

(** ** dspRenderer.ts: the render subprocess *)

(** What [renderMix] meets outside itself. [fs_mkdir dir] is the result of
    [fs.mkdir(dir, { recursive: true })]: [None] when it is fulfilled, the
    rejection otherwise. [child cmd args] is the sequence of events emitted by
    the process that [spawn(cmd, args)] starts. [fs_exists] tells which files
    are on disk once the child is done. *)
Record World := mkWorld {
  fs_mkdir : string -> option Error;
  child : string -> list string -> list ChildEvent;
  fs_exists : string -> bool
}.

(** The variables of the promise executor (lines 84-107). *)
Record RenderState := mkRenderState {
  stderr : string;
  promise : Promise string
}.

(** What one call of [renderMix] leaves behind: the state of the promise it
    returned once the child has emitted all its events ([None]: still
    pending), and the calls of [spawn] it made. *)
Record Run := mkRun {
  outcome : Promise string;
  spawned : list (string * list string)
}.

Section Render.

Variable Number_toString : number -> string.
Variable Buffer_toString : Buffer -> string.
Variable path_dirname : string -> string.
Variable FFMPEG_PATH : string.

(** Lines 89-106: the listeners. No listener is registered on stdout. *)
Definition onEvent (outputPath : string) (st : RenderState) (ev : ChildEvent)
  : RenderState :=
  match ev with
  | StderrData data =>
      mkRenderState (stderr st ++ Buffer_toString data) (promise st)
  | Close code =>
      if code_is_zero code then
        mkRenderState (stderr st) (settle (promise st) (Resolved outputPath))
      else
        mkRenderState (stderr st)
          (settle (promise st)
             (Rejected (new_Error ("FFmpeg failed with code " ++ code_toString code
                                   ++ ": " ++ stderr st))))
  | ErrorEvent error =>
      mkRenderState (stderr st) (settle (promise st) (Rejected error))
  | StdoutData _ => st
  end.

Definition runFfmpeg (outputPath : string) (events : list ChildEvent) : RenderState :=
  fold_left (onEvent outputPath) events (mkRenderState "" None).

(** Lines 22-113. The [catch] block rethrows what it caught. *)
Definition renderMix (w : World) (options : RenderOptions) : Run :=
  match fs_mkdir w (path_dirname (outputPath options)) with
  | Some error => mkRun (Some (Rejected error)) []
  | None =>
      let args := buildArgs Number_toString options in
      mkRun (promise (runFfmpeg (outputPath options) (child w FFMPEG_PATH args)))
            [(FFMPEG_PATH, args)]
  end.

End Render.

(** ** The filter graph as a graph

    [buildFilterComplex] writes text. The text is the printed form of a list
    of nodes ([printGraph_graphOf] below), which is where its wiring can be
    read off. *)

Inductive Filter : Type :=
| Volume (v : number)
| PanStereo (fl fr : number)
| ACopy
| AMix (inputs : nat) (duration : string).

Record Node := mkNode {
  node_inputs : list string;
  node_filters : list Filter;
  node_output : string
}.

Definition is_amix (f : Filter) : bool :=
  match f with
  | AMix _ _ => true
  | _ => false
  end.

Definition summing (n : Node) : bool := existsb is_amix (node_filters n).

Section Graph.

Variable Number_toString : number -> string.

Definition printFilter (f : Filter) : string :=
  match f with
  | Volume v => "volume=" ++ Number_toString v
  | PanStereo fl fr =>
      "pan=stereo|FL=" ++ Number_toString fl ++ "*c0|FR=" ++ Number_toString fr ++ "*c1"
  | ACopy => "acopy"
  | AMix inputs duration =>
      "amix=inputs=" ++ nat_toString inputs ++ ":duration=" ++ duration
  end.

Definition printLabel (l : string) : string := "[" ++ l ++ "]".

Definition printNode (n : Node) : string :=
  join "" (map printLabel (node_inputs n))
  ++ join "," (map printFilter (node_filters n))
  ++ printLabel (node_output n).

Definition printGraph (g : list Node) : string := join ";" (map printNode g).

Definition stemNode (index : nat) (stem : Stem) : Node :=
  let pan := stemPan stem in
  mkNode [nat_toString index ++ ":a"]
         (Volume (stemVolume stem)
          :: (if strict_neq pan 0%float
              then [PanStereo (leftGain pan) (rightGain pan)] else []))
         ("a" ++ nat_toString index).

Fixpoint stemNodes (l : list Stem) (index : nat) : list Node :=
  match l with
  | [] => []
  | stem :: rest => stemNode index stem :: stemNodes rest (S index)
  end.

Definition stemLabels (n : nat) : list string :=
  map (fun i => "a" ++ nat_toString i) (seq 0 n).

Definition outNode (n : nat) : Node :=
  if (1 <? n)%nat then mkNode (stemLabels n) [AMix n "longest"] "out"
  else mkNode ["a0"] [ACopy] "out".

Definition graphOf (l : list Stem) : list Node :=
  (stemNodes l 0 ++ [outNode (length l)])%list.

End Graph.

(** ** AudioProcessor.analyzeAudio: values read from the probe's output *)

#[local] Set Warnings "-register-all".

(** What [JSON.parse] returns. *)
Inductive json : Type :=
| JNull
| JBool (b : bool)
| JNumber (n : number)
| JString (s : string)
| JArray (items : list json)
| JObject (members : list (string * json)).

(** A value of the program: a parsed value, or [undefined] ([None]). *)
Definition value := option json.

(** A computation that may throw. *)
Definition Exn (A : Type) := (Error + A)%type.

Definition ret {A} (a : A) : Exn A := inr a.
Definition throw {A} (e : Error) : Exn A := inl e.
Definition bind {A B} (m : Exn A) (k : A -> Exn B) : Exn B :=
  match m with
  | inl e => inl e
  | inr a => k a
  end.

Notation "x <- m ;; k" := (bind m (fun x => k))
  (at level 61, m at next level, right associativity).

Fixpoint lookup (key : string) (members : list (string * json)) : value :=
  match members with
  | [] => None
  | (k, v) :: rest => if String.eqb k key then Some v else lookup key rest
  end.

(** [v.key], for the keys [analyzeAudio] reads ([streams], [codec_type],
    [format], [duration], [sample_rate], [bits_per_sample], [channels],
    [format_name], [codec_name]): none of them is inherited from a prototype,
    so only an object that holds the key gives more than [undefined]. *)
Definition getProp (v : value) (key : string) : Exn value :=
  match v with
  | None =>
      throw (TypeError ("Cannot read properties of undefined (reading '" ++ key ++ "')"))
  | Some JNull =>
      throw (TypeError ("Cannot read properties of null (reading '" ++ key ++ "')"))
  | Some (JObject members) => ret (lookup key members)
  | Some _ => ret None
  end.

(** [ToBoolean]. *)
Definition truthy (v : value) : bool :=
  match v with
  | None => false
  | Some JNull => false
  | Some (JBool b) => b
  | Some (JNumber n) => negb (falsy n)
  | Some (JString s) => negb (String.eqb s "")
  | Some (JArray _) => true
  | Some (JObject _) => true
  end.

(** [v || d]. *)
Definition value_or (v d : value) : value := if truthy v then v else d.

(** [v === 'audio']. *)
Definition is_audio (v : value) : bool :=
  match v with
  | Some (JString s) => String.eqb s "audio"
  | _ => false
  end.

(** [items.find((s) => s.codec_type === 'audio')] on an array. *)
Fixpoint find_audio (items : list json) : Exn value :=
  match items with
  | [] => ret None
  | s :: rest =>
      t <- getProp (Some s) "codec_type" ;;
      if is_audio t then ret (Some s) else find_audio rest
  end.

(** [streams.find(...)]: only an array has the method. *)
Definition call_find (streams : value) : Exn value :=
  match streams with
  | Some (JArray items) => find_audio items
  | None => throw (TypeError "Cannot read properties of undefined (reading 'find')")
  | Some JNull => throw (TypeError "Cannot read properties of null (reading 'find')")
  | Some _ => throw (TypeError "data.streams.find is not a function")
  end.

Record AudioMetadata := mkAudioMetadata {
  duration : number;
  md_sampleRate : number;
  md_bitDepth : value;
  channels : value;
  md_format : value;
  codec : value;
  fileSize : number
}.

(** What [analyzeAudio] meets outside itself: the events of the process that
    [spawn(cmd, args)] starts, and the result of [statSync(path)], which is
    the [size] of the file or the exception thrown. *)
Record ProbeWorld := mkProbeWorld {
  probe_child : string -> list string -> list ChildEvent;
  fs_statSync : string -> Exn number
}.

(** The variables of the promise executor of [analyzeAudio], and the
    exception, if any, that no listener was there to receive. *)
Record ProbeState := mkProbeState {
  output : string;
  error : string;
  probe_promise : Promise AudioMetadata;
  uncaught : option Error
}.

Section Probe.

Variable Buffer_toString : Buffer -> string.
Variable JSON_parse : string -> Exn json.
Variable parseFloat : value -> number.
Variable parseInt : value -> number.
Variable FFPROBE_PATH : string.

(** Lines 59-77: the body of the [try] block. It yields the settlement
    it asks for, or throws. *)
Definition readMetadata (w : ProbeWorld) (filePath : string) (output : string)
  : Exn (Settlement AudioMetadata) :=
  data <- JSON_parse output ;;
  streams <- getProp (Some data) "streams" ;;
  audioStream <- call_find streams ;;
  if negb (truthy audioStream) then
    ret (Rejected (new_Error "No audio stream found in file"))
  else
    size <- fs_statSync w filePath ;;
    format0 <- getProp (Some data) "format" ;;
    duration <- getProp format0 "duration" ;;
    sample_rate <- getProp audioStream "sample_rate" ;;
    bits_per_sample <- getProp audioStream "bits_per_sample" ;;
    channels <- getProp audioStream "channels" ;;
    format1 <- getProp (Some data) "format" ;;
    format_name <- getProp format1 "format_name" ;;
    codec_name <- getProp audioStream "codec_name" ;;
    ret (Resolved
           (mkAudioMetadata
              (parseFloat (value_or duration (Some (JString "0"))))
              (parseInt (value_or sample_rate (Some (JString "44100"))))
              (value_or bits_per_sample (Some (JNumber 16%float)))
              (value_or channels (Some (JNumber 2%float)))
              (value_or format_name (Some (JString "unknown")))
              codec_name
              size)).

(** Lines 51-82: the listener of [close]. *)
Definition onProbeClose (w : ProbeWorld) (filePath : string) (st : ProbeState)
  (code : option Z) : Settlement AudioMetadata :=
  if negb (code_is_zero code) then
    Rejected (new_Error ("FFprobe failed: " ++ error st))
  else
    match readMetadata w filePath (output st) with
    | inr s => s
    | inl parseError =>
        Rejected (new_Error ("Failed to parse audio metadata: " ++ message parseError))
    end.

(** Lines 43-82: the listeners. None is registered for [error]: the event
    is then thrown, and nothing runs after it. *)
Definition onProbeEvent (w : ProbeWorld) (filePath : string) (st : ProbeState)
  (ev : ChildEvent) : ProbeState :=
  match uncaught st with
  | Some _ => st
  | None =>
      match ev with
      | StdoutData data =>
          mkProbeState (output st ++ Buffer_toString data) (error st)
                       (probe_promise st) None
      | StderrData data =>
          mkProbeState (output st) (error st ++ Buffer_toString data)
                       (probe_promise st) None
      | Close code =>
          mkProbeState (output st) (error st)
                       (settle (probe_promise st) (onProbeClose w filePath st code)) None
      | ErrorEvent e =>
          mkProbeState (output st) (error st) (probe_promise st) (Some e)
      end
  end.

Definition probeArgs (filePath : string) : list string :=
  ["-v"; "quiet"; "-print_format"; "json"; "-show_format"; "-show_streams"; filePath].

(** Lines 29-84. *)
Definition analyzeAudio (w : ProbeWorld) (filePath : string) : ProbeState :=
  fold_left (onProbeEvent w filePath)
            (probe_child w FFPROBE_PATH (probeArgs filePath))
            (mkProbeState "" "" None None).

End Probe.

(** ** dspRenderer.ts: analyzeAudioFile *)

(** The variables of the promise executor of [analyzeAudioFile] (lines
    125-152), and the exception that no listener was there to receive. *)
Record FileProbeState := mkFileProbeState {
  fp_stdout : string;
  fp_stderr : string;
  fp_promise : Promise json;
  fp_uncaught : option Error
}.

Section FileProbe.

Variable Buffer_toString : Buffer -> string.
Variable JSON_parse : string -> Exn json.

(** Lines 139-151: the listener of [close]. *)
Definition onFileProbeClose (st : FileProbeState) (code : option Z) : Settlement json :=
  if code_is_zero code then
    match JSON_parse (fp_stdout st) with
    | inr metadata => Resolved metadata
    | inl parseError =>
        Rejected (new_Error ("Failed to parse ffprobe output: " ++ message parseError))
    end
  else
    Rejected (new_Error ("ffprobe failed with code " ++ code_toString code ++ ": "
                         ++ fp_stderr st)).

(** Lines 131-151: the listeners. None is registered for [error]. *)
Definition onFileProbeEvent (st : FileProbeState) (ev : ChildEvent) : FileProbeState :=
  match fp_uncaught st with
  | Some _ => st
  | None =>
      match ev with
      | StdoutData data =>
          mkFileProbeState (fp_stdout st ++ Buffer_toString data) (fp_stderr st)
                           (fp_promise st) None
      | StderrData data =>
          mkFileProbeState (fp_stdout st) (fp_stderr st ++ Buffer_toString data)
                           (fp_promise st) None
      | Close code =>
          mkFileProbeState (fp_stdout st) (fp_stderr st)
                           (settle (fp_promise st) (onFileProbeClose st code)) None
      | ErrorEvent e =>
          mkFileProbeState (fp_stdout st) (fp_stderr st) (fp_promise st) (Some e)
      end
  end.

(** Lines 115-158. The arguments are those of [probeArgs]; the command is
    the literal [ffprobe]. *)
Definition analyzeAudioFile (w : ProbeWorld) (filePath : string) : FileProbeState :=
  fold_left onFileProbeEvent
            (probe_child w "ffprobe" (probeArgs filePath))
            (mkFileProbeState "" "" None None).

End FileProbe.

(** ** AudioProcessor: processAudio, mixAudioFiles, convertToWav,
       testFFmpegInstallation, runCommand *)

(** [spawn]: the events of the process started with a command and its
    arguments. *)
Definition Spawn := string -> list string -> list ChildEvent.

(** [String.prototype.includes]. *)
Fixpoint includes (s search : string) : bool :=
  String.prefix search s
  || match s with
     | EmptyString => false
     | String _ rest => includes rest search
     end.

Module AudioProcessor.

Record Trim := mkTrim {
  start : number;
  end_ : number
}.

(** [AudioProcessingOptions]; a field that is left out is [None]. *)
Record AudioProcessingOptions := mkOptions {
  normalize : option bool;
  fadeIn : option number;
  fadeOut : option number;
  trim : option Trim;
  volume : option number;
  sampleRate : option number;
  bitDepth : option number
}.

(** [{}], the default of the parameter [options]. *)
Definition noOptions : AudioProcessingOptions :=
  mkOptions None None None None None None None.

(** [ToBoolean] on an optional number. *)
Definition truthyNumber (x : option number) : bool :=
  match x with
  | Some n => negb (falsy n)
  | None => false
  end.

(** The variables of the promise executors of [processAudio] and
    [mixAudioFiles], and the exception no listener was there to receive. *)
Record State := mkState {
  error : string;
  promise : Promise unit;
  uncaught : option Error
}.

(** What a call leaves behind: the state after the last event of the child
    and the calls of [spawn]. *)
Record Run := mkRun {
  final : State;
  spawned : list (string * list string)
}.

Section WithRuntime.

Variable Number_toString : number -> string.
Variable Buffer_toString : Buffer -> string.
Variable FFMPEG_PATH : string.
Variable FFPROBE_PATH : string.

(** Lines 95-111 of [processAudio]: the audio filters. *)
Definition audioFilters (options : AudioProcessingOptions) : list string :=
  let filters := [] in
  let filters :=
    match normalize options with
    | Some true => (filters ++ ["loudnorm=I=-16:TP=-1.5:LRA=11"])%list
    | _ => filters
    end in
  let filters :=
    match fadeIn options with
    | Some d =>
        if truthyNumber (Some d)
        then (filters ++ [("afade=t=in:d=" ++ Number_toString d)%string])%list else filters
    | None => filters
    end in
  let filters :=
    match fadeOut options with
    | Some d =>
        if truthyNumber (Some d)
        then (filters ++ [("afade=t=out:d=" ++ Number_toString d)%string])%list else filters
    | None => filters
    end in
  match volume options with
  | Some v =>
      if truthyNumber (Some v) && strict_neq v 1
      then (filters ++ [("volume=" ++ Number_toString v)%string])%list else filters
  | None => filters
  end.

(** Lines 92-132 of [processAudio]: the argument list. *)
Definition processArgs (inputPath outputPath : string) (options : AudioProcessingOptions)
  : list string :=
  let args := ["-i"; inputPath] in
  let filters := audioFilters options in
  let args :=
    if (0 <? length filters)%nat then (args ++ ["-af"; join "," filters])%list else args in
  let args :=
    match sampleRate options with
    | Some r =>
        if truthyNumber (Some r) then (args ++ ["-ar"; Number_toString r])%list else args
    | None => args
    end in
  let args :=
    match bitDepth options with
    | Some b =>
        if truthyNumber (Some b)
        then (args ++ ["-sample_fmt"; if (b =? 16)%float then "s16" else "s32"])%list
        else args
    | None => args
    end in
  let args :=
    match trim options with
    | Some t =>
        ((args ++ ["-ss"; Number_toString (start t)])
         ++ ["-to"; Number_toString (end_ t)])%list
    | None => args
    end in
  (args ++ ["-y"; outputPath])%list.

(** The listeners of [processAudio] (lines 139-152) and of [mixAudioFiles]
    (lines 193-206), which differ in the text [failure] put before the
    diagnostics. None is registered for [error], none on stdout. *)
Definition onEvent (failure : string) (st : State) (ev : ChildEvent) : State :=
  match uncaught st with
  | Some _ => st
  | None =>
      match ev with
      | StderrData data => mkState (error st ++ Buffer_toString data) (promise st) None
      | Close code =>
          if negb (code_is_zero code) then
            mkState (error st)
                    (settle (promise st) (Rejected (new_Error (failure ++ error st)))) None
          else
            mkState (error st) (settle (promise st) (Resolved tt)) None
      | ErrorEvent e => mkState (error st) (promise st) (Some e)
      | StdoutData _ => st
      end
  end.

Definition run (failure : string) (events : list ChildEvent) : State :=
  fold_left (onEvent failure) events (mkState "" None None).

(** Lines 86-154. *)
Definition processAudio (spawn : Spawn) (inputPath outputPath : string)
  (options : AudioProcessingOptions) : Run :=
  let args := processArgs inputPath outputPath options in
  mkRun (run "FFmpeg failed: " (spawn FFMPEG_PATH args)) [(FFMPEG_PATH, args)].

(** Lines 210-215. *)
Definition convertToWav (spawn : Spawn) (inputPath outputPath : string) : Run :=
  processAudio spawn inputPath outputPath
    (mkOptions None None None None None (Some 44100%float) (Some 16%float)).

(** [volumes[i] || 1] and [volumes[i] && volumes[i] !== 1]. *)
Definition volumeOf (volumes : list number) (i : nat) : number :=
  match nth_error volumes i with
  | Some v => or_else v 1
  | None => 1%float
  end.

Definition adjusted (volumes : list number) (i : nat) : bool :=
  match nth_error volumes i with
  | Some v => negb (falsy v) && strict_neq v 1
  | None => false
  end.

(** Lines 170-173 of [mixAudioFiles]: the entry of stem [i]. *)
Definition mixInput (volumes : list number) (i : nat) : string :=
  let volume := volumeOf volumes i in
  if strict_neq volume 1 then
    "[" ++ nat_toString i ++ "]volume=" ++ Number_toString volume
    ++ "[v" ++ nat_toString i ++ "]"
  else "[" ++ nat_toString i ++ "]".

(** Lines 170-182 of [mixAudioFiles]: the text of the graph. *)
Definition mixFilterComplex (stemPaths : list string) (volumes : list number) : string :=
  let indices := seq 0 (length stemPaths) in
  let inputs := map (mixInput volumes) indices in
  let volumeFilters := join ";" (filter (fun input => includes input "volume") inputs) in
  let mixInputs :=
    join "" (map (fun i => if adjusted volumes i
                           then "[v" ++ nat_toString i ++ "]"
                           else "[" ++ nat_toString i ++ "]") indices) in
  if negb (String.eqb volumeFilters "") then
    volumeFilters ++ ";" ++ mixInputs ++ "amix=inputs=" ++ nat_toString (length stemPaths)
    ++ ":duration=longest[out]"
  else
    mixInputs ++ "amix=inputs=" ++ nat_toString (length stemPaths)
    ++ ":duration=longest[out]".

(** Lines 162-186 of [mixAudioFiles]: the argument list. *)
Definition mixArgs (stemPaths : list string) (outputPath : string) (volumes : list number)
  : list string :=
  let args := flat_map (fun path => ["-i"; path]) stemPaths in
  let args := (args ++ ["-filter_complex"; mixFilterComplex stemPaths volumes])%list in
  let args := (args ++ ["-map"; "[out]"])%list in
  (args ++ ["-y"; outputPath])%list.

(** Lines 156-208. *)
Definition mixAudioFiles (spawn : Spawn) (stemPaths : list string) (outputPath : string)
  (volumes : list number) : Run :=
  let args := mixArgs stemPaths outputPath volumes in
  mkRun (run "Audio mixing failed: " (spawn FFMPEG_PATH args)) [(FFMPEG_PATH, args)].

(** Lines 231-240: the listeners of [runCommand]. *)
Definition onCommandEvent (p : Promise unit) (ev : ChildEvent) : Promise unit :=
  match ev with
  | Close code =>
      if code_is_zero code then settle p (Resolved tt)
      else settle p (Rejected (new_Error ("Command failed with code " ++ code_toString code)))
  | ErrorEvent e => settle p (Rejected e)
  | StdoutData _ | StderrData _ => p
  end.

Definition runCommand (spawn : Spawn) (command : string) (args : list string)
  : Promise unit :=
  fold_left onCommandEvent (spawn command args) None.

(** Lines 217-229. [Promise.all] is fulfilled when both promises are, and is
    rejected as soon as one of them is; the reason it is rejected with is
    dropped by the [catch]. The result is [None] while the function has not
    returned. *)
Definition testFFmpegInstallation (spawn : Spawn) : option bool :=
  match runCommand spawn FFMPEG_PATH ["-version"],
        runCommand spawn FFPROBE_PATH ["-version"] with
  | Some (Rejected _), _ => Some false
  | _, Some (Rejected _) => Some false
  | Some (Resolved _), Some (Resolved _) => Some true
  | _, _ => None
  end.

End WithRuntime.

End AudioProcessor.

(** ** checkSystemRequirements *)

(** What a call of [checkSystemRequirements] leaves behind: how the promise
    it returned is settled ([None]: still pending), the directories on disk,
    and the directories [mkdirSync] was called on. *)
Record Check := mkCheck {
  checked : Promise unit;
  disk : string -> bool;
  made : list string
}.

Section Requirements.

Variable FFMPEG_PATH : string.
Variable FFPROBE_PATH : string.

(** [fs.mkdirSync(dir, { recursive: true })] on a disk: the exception it
    throws, or the disk with [dir] on it. *)
Definition mkdirSync (refused : string -> option Error) (present : string -> bool)
  (dir : string) : Exn (string -> bool) :=
  match refused dir with
  | Some e => throw e
  | None => ret (fun p => String.eqb p dir || present p)
  end.

(** Lines 24-32: the loop over the directories. *)
Fixpoint ensureDirs (refused : string -> option Error) (dirs : list string)
  (present : string -> bool) (made : list string) : Check :=
  match dirs with
  | [] => mkCheck (Some (Resolved tt)) present made
  | dir :: rest =>
      if negb (present dir) then
        match mkdirSync refused present dir with
        | inl e => mkCheck (Some (Rejected e)) present (made ++ [dir])
        | inr present' => ensureDirs refused rest present' (made ++ [dir])
        end
      else ensureDirs refused rest present made
  end.

(** Lines 7-35. [OPENAI_API_KEY] is [None] when the configuration leaves
    it undefined. *)
Definition checkSystemRequirements (OPENAI_API_KEY : option string) (spawn : Spawn)
  (refused : string -> option Error) (present : string -> bool) : Check :=
  if match OPENAI_API_KEY with
     | None => true
     | Some key => String.eqb key "" || String.eqb key "your-openai-api-key-here"
     end
  then
    mkCheck (Some (Rejected (new_Error
      "OpenAI API key is not configured. Please set OPENAI_API_KEY in your .env file.")))
      present []
  else
    match AudioProcessor.testFFmpegInstallation FFMPEG_PATH FFPROBE_PATH spawn with
    | None => mkCheck None present []
    | Some false =>
        mkCheck (Some (Rejected (new_Error
          "FFmpeg/FFprobe not found. Please install FFmpeg."))) present []
    | Some true => ensureDirs refused ["uploads"; "downloads"] present []
    end.

End Requirements.

(** ** Buffer.prototype.toString *)

(** The decoding that [data.toString()] performs on a chunk: UTF-8, where
    every maximal ill-formed part of the chunk, a sequence cut by the end of
    the chunk included, becomes the replacement character U+FFFD. A string
    is written here as the bytes of its UTF-8 form, so the decoded text of a
    well-formed chunk is the chunk itself and U+FFFD is the three bytes 239,
    191, 189. *)
Module Node.

Definition replacement : string :=
  String (ascii_of_nat 239) (String (ascii_of_nat 191) (String (ascii_of_nat 189) "")).

Definition within (lo hi : N) (b : Byte.byte) : bool :=
  ((lo <=? Byte.to_N b) && (Byte.to_N b <=? hi))%N.

Definition unit (b : Byte.byte) : string := String (ascii_of_byte b) "".

(** The second byte that may follow the lead byte of a sequence of three
    or of four bytes. *)
Definition second3 (b1 b2 : Byte.byte) : bool :=
  if within 224 224 b1 then within 160 191 b2
  else if within 237 237 b1 then within 128 159 b2
  else within 128 191 b2.

Definition second4 (b1 b2 : Byte.byte) : bool :=
  if within 240 240 b1 then within 144 191 b2
  else if within 244 244 b1 then within 128 143 b2
  else within 128 191 b2.

Fixpoint Buffer_toString (l : Buffer) : string :=
  match l with
  | [] => ""
  | b1 :: r1 =>
      if within 0 127 b1 then unit b1 ++ Buffer_toString r1
      else if within 194 223 b1 then
        match r1 with
        | b2 :: r2 =>
            if within 128 191 b2 then unit b1 ++ unit b2 ++ Buffer_toString r2
            else replacement ++ Buffer_toString r1
        | [] => replacement
        end
      else if within 224 239 b1 then
        match r1 with
        | b2 :: r2 =>
            if second3 b1 b2 then
              match r2 with
              | b3 :: r3 =>
                  if within 128 191 b3
                  then unit b1 ++ unit b2 ++ unit b3 ++ Buffer_toString r3
                  else replacement ++ Buffer_toString r2
              | [] => replacement
              end
            else replacement ++ Buffer_toString r1
        | [] => replacement
        end
      else if within 240 244 b1 then
        match r1 with
        | b2 :: r2 =>
            if second4 b1 b2 then
              match r2 with
              | b3 :: r3 =>
                  if within 128 191 b3 then
                    match r3 with
                    | b4 :: r4 =>
                        if within 128 191 b4
                        then unit b1 ++ unit b2 ++ unit b3 ++ unit b4 ++ Buffer_toString r4
                        else replacement ++ Buffer_toString r3
                    | [] => replacement
                    end
                  else replacement ++ Buffer_toString r2
              | [] => replacement
              end
            else replacement ++ Buffer_toString r1
        | [] => replacement
        end
      else replacement ++ Buffer_toString r1
  end.

End Node.

(** ** A concrete runtime for the examples

    Instances of the runtime functions, and a few worlds, at which the
    theorems below are evaluated. *)

Module Sample.

(** The digits after the point of [r / 2^k], for [0 <= r < 2^k]. *)
Fixpoint fractionDigits (fuel : nat) (r k : Z) : string :=
  match fuel with
  | O => ""
  | S fuel' =>
      if (r =? 0)%Z then ""
      else int_toString ((10 * r) / 2 ^ k) ++ fractionDigits fuel' ((10 * r) mod 2 ^ k) k
  end.

(** The exact decimal expansion of a number. It is what
    [Number.prototype.toString] gives on the integers below [10^21] and on
    the fractions, not below [10^-6], whose expansion has at most 15
    significant digits. *)
Definition Number_toString (x : number) : string :=
  match Prim2SF x with
  | S754_zero _ => "0"
  | S754_infinity false => "Infinity"
  | S754_infinity true => "-Infinity"
  | S754_nan => "NaN"
  | S754_finite s m e =>
      (if s then "-" else "") ++
      (if (0 <=? e)%Z then int_toString (Z.pos m * 2 ^ e)
       else
         let k := (- e)%Z in
         let r := (Z.pos m mod 2 ^ k)%Z in
         int_toString (Z.pos m / 2 ^ k)
         ++ (if (r =? 0)%Z then "" else "." ++ fractionDigits (Z.to_nat k) r k))
  end.

(** Decoding of a chunk that holds ASCII text. *)
Definition Buffer_toString (b : Buffer) : string := string_of_list_byte b.

Definition ascii (s : string) : Buffer := list_byte_of_string s.

(** [path.dirname] on the output paths of the examples. *)
Definition path_dirname (p : string) : string :=
  if String.eqb p "/downloads/mix.wav" then "/downloads" else ".".

Definition FFMPEG_PATH : string := "ffmpeg".
Definition FFPROBE_PATH : string := "ffprobe".

Definition renderMix := renderMix Number_toString Buffer_toString path_dirname FFMPEG_PATH.

(** The directory can be made, the child writes [diagnostics] to stderr and
    exits with [code], and no file is on disk afterwards. *)
Definition world (diagnostics : list string) (code : Z) : World :=
  mkWorld (fun _ => None)
          (fun _ _ => (map (fun d => StderrData (ascii d)) diagnostics
                       ++ [Close (Some code)])%list)
          (fun _ => false).

(** The directory cannot be made. *)
Definition EACCES : Error := mkError "Error" "EACCES: permission denied, mkdir '/downloads'".
Definition readonlyWorld : World :=
  mkWorld (fun _ => Some EACCES) (fun _ _ => [Close (Some 0%Z)]) (fun _ => false).

Definition wav : Settings := mkSettings 44100 16 "wav".
Definition mp3 : Settings := mkSettings 48000 24 "mp3".
Definition flac : Settings := mkSettings 96000 24 "flac".

Definition drums : Stem := mkStem "/uploads/drums.wav" 0.5 0 None.
Definition bass : Stem := mkStem "/uploads/bass.wav" 1 (-0.5) None.
Definition vocals : Stem := mkStem "/uploads/vocals.wav" 0 1 (Some ["reverb"]).
Definition pad : Stem := mkStem "/uploads/pad.wav" 0.25 (-1) (Some ["sidechain"]).

Definition job (l : list Stem) (s : Settings) : RenderOptions :=
  mkRenderOptions l "/downloads/mix.wav" s.

(** Probe outputs. A quotation mark is character 34. *)
Definition q (s : string) : string :=
  String (ascii_of_nat 34) (s ++ String (ascii_of_nat 34) EmptyString).

Definition audioDocument : string :=
  "{" ++ q "streams" ++ ":[{" ++ q "codec_type" ++ ":" ++ q "audio" ++ ","
      ++ q "sample_rate" ++ ":" ++ q "48000" ++ "," ++ q "channels" ++ ":2}],"
      ++ q "format" ++ ":{" ++ q "duration" ++ ":" ++ q "12.5" ++ ","
      ++ q "format_name" ++ ":" ++ q "wav" ++ "}}".

Definition videoDocument : string :=
  "{" ++ q "streams" ++ ":[{" ++ q "codec_type" ++ ":" ++ q "video" ++ "}],"
      ++ q "format" ++ ":{" ++ q "format_name" ++ ":" ++ q "mov" ++ "}}".

Definition headlessDocument : string :=
  "{" ++ q "streams" ++ ":[{" ++ q "codec_type" ++ ":" ++ q "audio" ++ "}]}".

Definition audioData : json :=
  JObject [("streams",
            JArray [JObject [("codec_type", JString "audio");
                             ("sample_rate", JString "48000");
                             ("channels", JNumber 2)]]);
           ("format", JObject [("duration", JString "12.5");
                               ("format_name", JString "wav")])].

Definition videoData : json :=
  JObject [("streams", JArray [JObject [("codec_type", JString "video")]]);
           ("format", JObject [("format_name", JString "mov")])].

Definition headlessData : json :=
  JObject [("streams", JArray [JObject [("codec_type", JString "audio")]])].

(** [JSON.parse] on the documents above and on text that is not JSON. *)
Definition JSON_parse (s : string) : Exn json :=
  if String.eqb s audioDocument then ret audioData
  else if String.eqb s videoDocument then ret videoData
  else if String.eqb s headlessDocument then ret headlessData
  else throw (mkError "SyntaxError" "Unexpected token in JSON at position 0").

(** [parseFloat] and [parseInt] on the values of the documents above. *)
Definition parseFloat (v : value) : number :=
  match v with
  | Some (JNumber n) => n
  | Some (JString s) => if String.eqb s "12.5" then 12.5%float else if String.eqb s "0" then 0%float else nan
  | _ => nan
  end.

Definition parseInt (v : value) : number :=
  match v with
  | Some (JNumber n) => n
  | Some (JString s) =>
      if String.eqb s "48000" then 48000%float else if String.eqb s "44100" then 44100%float
      else nan
  | _ => nan
  end.

Definition analyzeAudio := analyzeAudio Buffer_toString JSON_parse parseFloat parseInt FFPROBE_PATH.

Definition ENOENT : Error := mkError "Error" "ENOENT: no such file or directory, stat".

(** The probe prints [document] in two chunks and exits with code 0; the
    file has [size] bytes, or is gone when the size is asked for. *)
Definition probeWorld (document : string) (size : option number) : ProbeWorld :=
  mkProbeWorld
    (fun _ _ => [StdoutData (ascii (substring 0 5 document));
                 StdoutData (ascii (substring 5 (String.length document) document));
                 Close (Some 0%Z)])
    (fun _ => match size with Some n => ret n | None => throw ENOENT end).

(** A probe output with a video stream before the audio stream; the audio
    codec reports a bit depth of 0. *)
Definition movieData : json :=
  JObject [("streams",
            JArray [JObject [("codec_type", JString "video");
                             ("codec_name", JString "h264")];
                    JObject [("codec_type", JString "audio");
                             ("codec_name", JString "aac");
                             ("sample_rate", JString "48000");
                             ("bits_per_sample", JNumber 0);
                             ("channels", JNumber 2)]]);
           ("format", JObject [("duration", JString "12.5");
                               ("format_name", JString "mov")])].

(** A child that writes [diagnostics] to stderr and closes with [code],
    whatever the command. *)
Definition spawn (diagnostics : list string) (code : Z) : Spawn :=
  fun _ _ => (map (fun d => StderrData (ascii d)) diagnostics ++ [Close (Some code)])%list.

(** [ffmpeg] is installed and [ffprobe] is not. *)
Definition ffmpegOnly : Spawn :=
  fun cmd _ =>
    if String.eqb cmd "ffmpeg"
    then [StdoutData (ascii "ffmpeg version 6.0"); Close (Some 0%Z)]
    else [ErrorEvent (mkError "Error" "spawn ffprobe ENOENT")].

End Sample.


(** ** Vocabulary of the properties *)

(** The factors by which the pan stage of a chain scales the left and the
    right channel. A chain with no pan stage leaves both as they are. *)
Fixpoint channelGains (filters : list Filter) : number * number :=
  match filters with
  | [] => (1%float, 1%float)
  | PanStereo fl fr :: _ => (fl, fr)
  | _ :: rest => channelGains rest
  end.

(** The factor by which the chain scales every sample, if it has a volume
    stage. *)
Fixpoint volumeFactor (filters : list Filter) : option number :=
  match filters with
  | [] => None
  | Volume v :: _ => Some v
  | _ :: rest => volumeFactor rest
  end.

Definition has_pan (filters : list Filter) : bool :=
  existsb (fun f => match f with PanStereo _ _ => true | _ => false end) filters.

Definition writes_out (n : Node) : bool := String.eqb (node_output n) "out".

(** The flags that name the input files, in stem order. *)
Definition inputFlags (l : list Stem) : list string :=
  flat_map (fun stem => ["-i"; filePath stem]) l.

(** The flags that follow from the container format. *)
Definition codecFlags (N : number -> string) (s : Settings) : list string :=
  if String.eqb (format s) "wav" then
    ["-f"; "wav"; "-acodec"; "pcm_s" ++ N (bitDepth s) ++ "le"]
  else if String.eqb (format s) "mp3" then
    ["-f"; "mp3"; "-b:a"; "320k"]
  else [].

(** An event that carries a chunk of a stream. *)
Definition isData (ev : ChildEvent) : bool :=
  match ev with
  | StdoutData _ | StderrData _ => true
  | _ => false
  end.

Section Streams.

Variable Buffer_toString : Buffer -> string.

(** The text of the chunks a child wrote to stderr, in order. *)
Fixpoint stderrText (events : list ChildEvent) : string :=
  match events with
  | [] => ""
  | StderrData data :: rest => Buffer_toString data ++ stderrText rest
  | _ :: rest => stderrText rest
  end.

(** The text of the chunks a child wrote to stdout, in order. *)
Fixpoint stdoutText (events : list ChildEvent) : string :=
  match events with
  | [] => ""
  | StdoutData data :: rest => Buffer_toString data ++ stdoutText rest
  | _ :: rest => stdoutText rest
  end.

End Streams.

Definition contains (s part : string) : Prop :=
  exists before after, s = before ++ part ++ after.

(** A stem that differs from [stem] in its effect list only. *)
Definition withEffects (effs : option (list string)) (stem : Stem) : Stem :=
  mkStem (filePath stem) (volume stem) (pan stem) effs.

(** The probe output has a stream of type audio: it is an object whose
    [streams] is an array that holds an object with [codec_type] audio. *)
Definition hasAudioStream (data : json) : bool :=
  match data with
  | JObject members =>
      match lookup "streams" members with
      | Some (JArray items) =>
          existsb (fun s => match s with
                            | JObject m => is_audio (lookup "codec_type" m)
                            | _ => false
                            end) items
      | _ => false
      end
  | _ => false
  end.


(** An event other than a chunk of stdout. *)
Definition notStdout (ev : ChildEvent) : bool :=
  match ev with
  | StdoutData _ => false
  | _ => true
  end.

(** The graph that [mixAudioFiles] writes: one volume node per stem whose
    volume is adjusted, then the node that sums all stems. *)
Definition volumeNode (volumes : list number) (i : nat) : Node :=
  mkNode [nat_toString i] [Volume (AudioProcessor.volumeOf volumes i)]
         ("v" ++ nat_toString i).

Definition mixLabel (volumes : list number) (i : nat) : string :=
  if AudioProcessor.adjusted volumes i then "v" ++ nat_toString i else nat_toString i.

Definition mixNode (n : nat) (volumes : list number) : Node :=
  mkNode (map (mixLabel volumes) (seq 0 n)) [AMix n "longest"] "out".

Definition mixGraph (n : nat) (volumes : list number) : list Node :=
  (map (volumeNode volumes) (filter (AudioProcessor.adjusted volumes) (seq 0 n))
   ++ [mixNode n volumes])%list.

(** The character [c] occurs in [s]. *)
Fixpoint occurs (c : ascii) (s : string) : bool :=
  match s with
  | EmptyString => false
  | String c' rest => Ascii.eqb c c' || occurs c rest
  end.

(** An event that settles a promise: [close] or [error]. *)
Definition settles (ev : ChildEvent) : bool := negb (isData ev).

(** [options] with its [volume] replaced. *)
Definition withVolume (v : option number)
  (options : AudioProcessor.AudioProcessingOptions) : AudioProcessor.AudioProcessingOptions :=
  AudioProcessor.mkOptions
    (AudioProcessor.normalize options) (AudioProcessor.fadeIn options)
    (AudioProcessor.fadeOut options) (AudioProcessor.trim options) v
    (AudioProcessor.sampleRate options) (AudioProcessor.bitDepth options).

(** [options] with its [bitDepth] replaced. *)
Definition withBitDepth (b : option number)
  (options : AudioProcessor.AudioProcessingOptions) : AudioProcessor.AudioProcessingOptions :=
  AudioProcessor.mkOptions
    (AudioProcessor.normalize options) (AudioProcessor.fadeIn options)
    (AudioProcessor.fadeOut options) (AudioProcessor.trim options)
    (AudioProcessor.volume options) (AudioProcessor.sampleRate options) b.

(** The promise of [runCommand] as its first [close] or [error] leaves it. *)
Definition decided (first : option ChildEvent) : Promise unit :=
  match first with
  | Some (Close code) =>
      Some (if code_is_zero code then Resolved tt
            else Rejected (new_Error ("Command failed with code " ++ code_toString code)))
  | Some (ErrorEvent e) => Some (Rejected e)
  | _ => None
  end.

(** The text of the chains of the stems of [l], the first of which has
    index [index]: what the loop of lines 43-58 appends to [filterComplex]. *)
Fixpoint chainsText (N : number -> string) (l : list Stem) (index : nat) : string :=
  match l with
  | [] => ""
  | stem :: rest => stemFilter N index stem ++ ";" ++ chainsText N rest (S index)
  end.

(** The bytes a child wrote to stderr, in order. *)
Fixpoint stderrBytes (events : list ChildEvent) : Buffer :=
  match events with
  | [] => []
  | StderrData data :: rest => (data ++ stderrBytes rest)%list
  | _ :: rest => stderrBytes rest
  end.

(** The decoding [B] keeps every chunk of stderr as it is. *)
Definition lossless (B : Buffer -> string) (events : list ChildEvent) : Prop :=
  Forall (fun ev => match ev with
                    | StderrData data => B data = string_of_list_byte data
                    | _ => True
                    end) events.



(** * Properties *)

(** ** Strings *)

Lemma append_assoc (s1 s2 s3 : string) : (s1 ++ s2) ++ s3 = s1 ++ (s2 ++ s3).
Proof.
  induction s1 as [|c s1 IH]; simpl; [reflexivity | now rewrite IH].
Qed.

Lemma append_nil_r (s : string) : s ++ "" = s.
Proof.
  induction s as [|c s IH]; simpl; [reflexivity | now rewrite IH].
Qed.

Lemma join_snoc (sep : string) (l : list string) (x : string) :
  join sep (l ++ [x]) = fold_right (fun s acc => s ++ sep ++ acc) x l.
Proof.
  unfold join. induction l as [|a l IH]; [reflexivity|].
  change ((a :: l) ++ [x])%list with (a :: (l ++ [x]))%list.
  simpl fold_right. rewrite <- IH.
  destruct l; reflexivity.
Qed.

Lemma prefix_app (s t : string) : String.prefix s (s ++ t) = true.
Proof.
  induction s as [|c s IH]; [now destruct t|].
  cbn [append String.prefix]. destruct (ascii_dec c c); [exact IH | congruence].
Qed.

Lemma includes_app (a search b : string) : includes (a ++ search ++ b) search = true.
Proof.
  induction a as [|c a IH].
  - cbn [append]. destruct (search ++ b) eqn:E; cbn [includes];
      rewrite <- E, prefix_app; reflexivity.
  - cbn [append includes]. rewrite IH. now rewrite orb_true_r.
Qed.

Lemma contains_includes (s part : string) : contains s part -> includes s part = true.
Proof. intros (before & after & ->). apply includes_app. Qed.

Lemma string_of_list_byte_app (a b : Buffer) :
  string_of_list_byte (a ++ b) = string_of_list_byte a ++ string_of_list_byte b.
Proof.
  unfold string_of_list_byte. induction a as [|x a IH]; [reflexivity|].
  cbn [app map string_of_list_ascii append]. now rewrite IH.
Qed.

(** ** The text of the graph is the printed graph *)

Section GraphFacts.

Variable N : number -> string.

Lemma stemFilter_printNode (index : nat) (stem : Stem) :
  stemFilter N index stem = printNode N (stemNode index stem).
Proof.
  unfold stemFilter, printNode, stemNode, printLabel, join.
  generalize (nat_toString index) as idx; intro idx.
  destruct (strict_neq (stemPan stem) 0); cbn [map node_inputs node_filters node_output
    String.concat printFilter];
    repeat rewrite append_assoc; simpl; repeat rewrite append_assoc; reflexivity.
Qed.

(** The loop appends one chain and one label per stem. *)
Lemma stemsLoop_spec (l : list Stem) : forall index text labels,
  stemsLoop N l index (text, labels)
  = (text ++ fold_right (fun n acc => printNode N n ++ ";" ++ acc) "" (stemNodes l index),
     (labels ++ map audioLabel (seq index (length l)))%list).
Proof.
  induction l as [|stem rest IH]; intros index text labels.
  - simpl. now rewrite append_nil_r, app_nil_r.
  - cbn [stemsLoop fst snd]. rewrite IH.
    cbn [stemNodes fold_right length seq map].
    rewrite stemFilter_printNode, <- app_assoc.
    repeat rewrite append_assoc. reflexivity.
Qed.

Lemma map_node_output_stemNodes (l : list Stem) : forall index,
  map node_output (stemNodes l index)
  = map (fun i => "a" ++ nat_toString i) (seq index (length l)).
Proof.
  induction l as [|stem rest IH]; intro index; [reflexivity|].
  cbn [stemNodes map length seq]. now rewrite IH.
Qed.

Lemma printNode_outNode (n : nat) :
  printNode N (outNode n)
  = if (1 <? n)%nat then
      join "" (map audioLabel (seq 0 n)) ++ "amix=inputs=" ++ nat_toString n
      ++ ":duration=longest[out]"
    else "[a0]acopy[out]".
Proof.
  unfold outNode. destruct (1 <? n)%nat; [|reflexivity].
  unfold printNode, stemLabels, printLabel.
  cbn [node_inputs node_filters node_output map printFilter join String.concat].
  rewrite map_map.
  rewrite (map_ext _ audioLabel) by (intro; reflexivity).
  repeat rewrite append_assoc. reflexivity.
Qed.

(** [buildFilterComplex] prints [graphOf]. *)
Lemma printGraph_graphOf (l : list Stem) :
  buildFilterComplex N l = printGraph N (graphOf l).
Proof.
  unfold buildFilterComplex, printGraph, graphOf.
  rewrite stemsLoop_spec, map_app. cbn [map app].
  rewrite join_snoc, printNode_outNode, length_map, length_seq.
  generalize (stemNodes l 0) as nodes; intro nodes.
  assert (E : forall tail,
             fold_right (fun n acc => printNode N n ++ ";" ++ acc) "" nodes ++ tail
             = fold_right (fun s acc => s ++ ";" ++ acc) tail (map (printNode N) nodes)).
  { induction nodes as [|n nodes IH]; intro tail; [reflexivity|].
    cbn [fold_right map]. rewrite <- IH. now repeat rewrite append_assoc. }
  destruct (1 <? length l)%nat; cbn [append]; apply E.
Qed.

Lemma stemNode_not_summing (index : nat) (stem : Stem) :
  summing (stemNode index stem) = false.
Proof.
  unfold summing, stemNode; cbn [node_filters].
  destruct (strict_neq (stemPan stem) 0); reflexivity.
Qed.

Lemma stemNode_not_out (index : nat) (stem : Stem) :
  writes_out (stemNode index stem) = false.
Proof. reflexivity. Qed.

Lemma filter_stemNodes (f : Node -> bool) (l : list Stem) :
  (forall index stem, f (stemNode index stem) = false) ->
  forall index, filter f (stemNodes l index) = [].
Proof.
  intros Hf. induction l as [|stem rest IH]; intro index; [reflexivity|].
  cbn [stemNodes filter]. now rewrite Hf, IH.
Qed.

End GraphFacts.

(** ** The wiring of the output label *)

Lemma graphOf_many (s1 s2 : Stem) (rest : list Stem) :
  let l := s1 :: s2 :: rest in
  graphOf l
  = (stemNodes l 0
     ++ [mkNode (map node_output (stemNodes l 0)) [AMix (length l) "longest"] "out"])%list.
Proof.
  intro l. unfold graphOf, outNode, stemLabels.
  rewrite map_node_output_stemNodes. reflexivity.
Qed.

(** C6. With one stem the text of the graph is the chain of that stem, which
    ends in the label [a0], followed by one node that copies [a0] to [out]:
    the graph has no summing node. With two stems or more the text is the
    chains followed by one [amix] node with [duration=longest], whose inputs
    are the labels of all the chains in stem order and whose output is [out];
    it is the only summing node and the only node that writes [out]. *)
Theorem C6_output_wiring (N : number -> string) :
  (forall stem,
      let copy := mkNode [node_output (stemNode 0 stem)] [ACopy] "out" in
      graphOf [stem] = [stemNode 0 stem; copy]
      /\ buildFilterComplex N [stem] = printGraph N [stemNode 0 stem; copy]
      /\ buildFilterComplex N [stem] = stemFilter N 0 stem ++ ";[a0]acopy[out]"
      /\ filter summing (graphOf [stem]) = []
      /\ filter writes_out (graphOf [stem]) = [copy])
  /\
  (forall s1 s2 rest,
      let l := s1 :: s2 :: rest in
      let mix := mkNode (map node_output (stemNodes l 0)) [AMix (length l) "longest"] "out" in
      graphOf l = (stemNodes l 0 ++ [mix])%list
      /\ buildFilterComplex N l = printGraph N (stemNodes l 0 ++ [mix])
      /\ filter summing (graphOf l) = [mix]
      /\ filter writes_out (graphOf l) = [mix]).
Proof.
  split.
  - intros stem copy.
    assert (G : graphOf [stem] = [stemNode 0 stem; copy]) by reflexivity.
    split; [exact G|].
    split; [now rewrite printGraph_graphOf, G|].
    split.
    { rewrite printGraph_graphOf, G. unfold printGraph, join.
      cbn [map String.concat]. now rewrite <- stemFilter_printNode. }
    split.
    { rewrite G. cbn [filter]. now rewrite stemNode_not_summing. }
    rewrite G. reflexivity.
  - intros s1 s2 rest l mix.
    assert (G : graphOf l = (stemNodes l 0 ++ [mix])%list) by apply graphOf_many.
    split; [exact G|].
    split; [now rewrite printGraph_graphOf, G|].
    split.
    { rewrite G, filter_app, (filter_stemNodes summing);
        [reflexivity | apply stemNode_not_summing]. }
    rewrite G, filter_app, (filter_stemNodes writes_out);
      [reflexivity | apply stemNode_not_out].
Qed.

(** ** Numbers *)

Lemma leb_not_nan (x y : number) : (x <=? y)%float = true -> is_nan x = false.
Proof.
  unfold is_nan. rewrite leb_spec, eqb_spec.
  unfold SFleb, SFeqb.
  destruct (Prim2SF x) as [s | s | | s m e]; cbn [SFcompare]; try discriminate.
  - reflexivity.
  - destruct s; reflexivity.
  - intros _. rewrite Z.compare_refl, Pos.compare_cont_refl.
    destruct s; reflexivity.
Qed.

Lemma is_zero_leb (x : number) :
  is_zero x = true -> (x <=? 0)%float = true /\ (0 <=? x)%float = true.
Proof.
  unfold is_zero. rewrite eqb_spec, !leb_spec.
  change (Prim2SF 0) with (S754_zero false).
  unfold SFleb, SFeqb.
  destruct (Prim2SF x) as [s | s | | s m e]; cbn [SFcompare];
    try discriminate; try (destruct s; discriminate).
  now split.
Qed.

Lemma stemPan_falsy (stem : Stem) :
  falsy (pan stem) = true -> stemPan stem = 0%float /\ strict_neq (stemPan stem) 0 = false.
Proof.
  intro H. unfold stemPan, or_else. rewrite H. now split.
Qed.

Lemma stemPan_truthy (stem : Stem) :
  falsy (pan stem) = false ->
  stemPan stem = pan stem /\ strict_neq (stemPan stem) 0 = true.
Proof.
  intro H. unfold stemPan, or_else. rewrite H. split; [reflexivity|].
  unfold falsy in H. apply orb_false_elim in H as [H _].
  change (negb (is_zero (pan stem)) = true). now rewrite H.
Qed.

(** The text of a chain, in one piece. *)
Lemma stemFilter_text (N : number -> string) (index : nat) (stem : Stem) :
  stemFilter N index stem
  = "[" ++ nat_toString index ++ ":a]volume=" ++ N (stemVolume stem)
    ++ (if strict_neq (stemPan stem) 0
        then ",pan=stereo|FL=" ++ N (leftGain (stemPan stem))
             ++ "*c0|FR=" ++ N (rightGain (stemPan stem)) ++ "*c1"
        else "")
    ++ "[a" ++ nat_toString index ++ "]".
Proof.
  unfold stemFilter.
  generalize (nat_toString index) as idx; intro idx.
  destruct (strict_neq (stemPan stem) 0);
    repeat rewrite append_assoc; simpl; repeat rewrite append_assoc; reflexivity.
Qed.

(** ** The argument list *)

Section ArgsFacts.

Variable N : number -> string.

Lemma inputArgs_spec (l : list Stem) : forall args,
  inputArgs l args = (args ++ inputFlags l)%list.
Proof.
  induction l as [|stem rest IH]; intro args.
  - simpl. now rewrite app_nil_r.
  - cbn [inputArgs inputFlags flat_map]. rewrite IH, <- app_assoc. reflexivity.
Qed.

Lemma formatArgs_spec (s : Settings) (args : list string) :
  formatArgs N s args = (args ++ codecFlags N s)%list.
Proof.
  unfold formatArgs, codecFlags.
  destruct (String.eqb (format s) "wav"); [now rewrite <- app_assoc|].
  destruct (String.eqb (format s) "mp3"); [now rewrite <- app_assoc|].
  now rewrite app_nil_r.
Qed.

Lemma buildArgs_spec (options : RenderOptions) :
  buildArgs N options
  = ("-y" :: inputFlags (stems options)
     ++ ["-filter_complex"; buildFilterComplex N (stems options);
         "-map"; "[out]";
         "-ar"; N (sampleRate (settings options))]
     ++ codecFlags N (settings options)
     ++ [outputPath options])%list.
Proof.
  unfold buildArgs. rewrite formatArgs_spec, inputArgs_spec.
  cbn [app]. repeat rewrite <- app_assoc. reflexivity.
Qed.

End ArgsFacts.

(** ** The render subprocess *)

Section RenderFacts.

Variable N : number -> string.
Variable B : Buffer -> string.
Variable dirname : string -> string.
Variable ffmpeg : string.

(** Chunks of data only append to [stderr]. *)
Lemma onEvent_data (out : string) (prefix : list ChildEvent) : forall st,
  forallb isData prefix = true ->
  fold_left (onEvent B out) prefix st
  = mkRenderState (stderr st ++ stderrText B prefix) (promise st).
Proof.
  induction prefix as [|ev prefix IH]; intros st H.
  - simpl. rewrite append_nil_r. now destruct st.
  - cbn [forallb] in H. apply andb_prop in H as [Hev H].
    cbn [fold_left]. rewrite (IH _ H).
    destruct ev; try discriminate; cbn [onEvent stderrText stderr promise].
    + reflexivity.
    + now rewrite append_assoc.
Qed.

(** A settled promise stays as it is. *)
Lemma onEvent_settled (out : string) (events : list ChildEvent) : forall st s,
  promise st = Some s ->
  promise (fold_left (onEvent B out) events st) = Some s.
Proof.
  induction events as [|ev events IH]; intros st s H; [exact H|].
  cbn [fold_left]. apply IH.
  destruct ev as [chunk | chunk | code | e]; cbn [onEvent]; try exact H.
  - destruct (code_is_zero code); cbn [promise]; now rewrite H.
  - cbn [promise]. now rewrite H.
Qed.

(** The promise when the first event that is not data is [close]. *)
Lemma runFfmpeg_close (out : string) (prefix rest : list ChildEvent) (code : option Z) :
  forallb isData prefix = true ->
  promise (runFfmpeg B out (prefix ++ Close code :: rest))
  = Some (if code_is_zero code then Resolved out
          else Rejected (new_Error ("FFmpeg failed with code " ++ code_toString code
                                    ++ ": " ++ stderrText B prefix))).
Proof.
  intro H. unfold runFfmpeg. rewrite fold_left_app, (onEvent_data _ _ _ H).
  cbn [fold_left stderr promise append].
  apply onEvent_settled. cbn [onEvent].
  destruct (code_is_zero code); reflexivity.
Qed.

Lemma renderMix_spawns (w : World) (options : RenderOptions) :
  fs_mkdir w (dirname (outputPath options)) = None ->
  renderMix N B dirname ffmpeg w options
  = mkRun (promise (runFfmpeg B (outputPath options)
                      (child w ffmpeg (buildArgs N options))))
          [(ffmpeg, buildArgs N options)].
Proof. intro H. unfold renderMix. now rewrite H. Qed.

(** When the output directory cannot be made, nothing is spawned and the
    promise is rejected with the error of [mkdir]. *)
Lemma renderMix_mkdir_rejected (w : World) (options : RenderOptions) (e : Error) :
  fs_mkdir w (dirname (outputPath options)) = Some e ->
  renderMix N B dirname ffmpeg w options = mkRun (Some (Rejected e)) [].
Proof. intro H. unfold renderMix. now rewrite H. Qed.

(** The effect lists are not read. *)
Lemma stemsLoop_effects (f : Stem -> option (list string)) (l : list Stem) :
  forall index st,
    stemsLoop N (map (fun s => withEffects (f s) s) l) index st = stemsLoop N l index st.
Proof.
  induction l as [|stem rest IH]; intros index st; [reflexivity|].
  cbn [map stemsLoop]. rewrite IH. reflexivity.
Qed.

Lemma inputArgs_effects (f : Stem -> option (list string)) (l : list Stem) :
  forall args,
    inputArgs (map (fun s => withEffects (f s) s) l) args = inputArgs l args.
Proof.
  induction l as [|stem rest IH]; intro args; [reflexivity|].
  cbn [map inputArgs]. rewrite IH. reflexivity.
Qed.

Lemma buildArgs_effects (f : Stem -> option (list string)) (l : list Stem)
  (out : string) (s : Settings) :
  buildArgs N (mkRenderOptions (map (fun s => withEffects (f s) s) l) out s)
  = buildArgs N (mkRenderOptions l out s).
Proof.
  unfold buildArgs, buildFilterComplex; cbn [stems outputPath settings].
  now rewrite inputArgs_effects, stemsLoop_effects.
Qed.

End RenderFacts.

(** ** The chain of a stem in the graph that is rendered *)

Section ChainFacts.

Variable N : number -> string.

Lemma chainsText_fold (l : list Stem) : forall index,
  fold_right (fun n acc => printNode N n ++ ";" ++ acc) "" (stemNodes l index)
  = chainsText N l index.
Proof.
  induction l as [|stem rest IH]; intro index; [reflexivity|].
  cbn [stemNodes fold_right chainsText]. now rewrite IH, stemFilter_printNode.
Qed.

Lemma chainsText_app (l1 l2 : list Stem) : forall index,
  chainsText N (l1 ++ l2) index
  = chainsText N l1 index ++ chainsText N l2 (index + length l1).
Proof.
  induction l1 as [|stem l1 IH]; intro index.
  - cbn [app chainsText length append]. now rewrite Nat.add_0_r.
  - cbn [app chainsText length]. rewrite IH, !append_assoc.
    now rewrite Nat.add_succ_comm.
Qed.

(** The text of the graph is the chains followed by the node of [out]. *)
Lemma buildFilterComplex_chains (l : list Stem) :
  buildFilterComplex N l = chainsText N l 0 ++ printNode N (outNode (length l)).
Proof.
  unfold buildFilterComplex. rewrite stemsLoop_spec, chainsText_fold.
  cbn [append app]. rewrite printNode_outNode, length_map, length_seq.
  now destruct (1 <? length l)%nat.
Qed.

Lemma buildFilterComplex_chain (l1 l2 : list Stem) (stem : Stem) :
  buildFilterComplex N (l1 ++ stem :: l2)
  = chainsText N l1 0 ++ stemFilter N (length l1) stem ++ ";"
    ++ (chainsText N l2 (S (length l1))
        ++ printNode N (outNode (length (l1 ++ stem :: l2)))).
Proof.
  rewrite buildFilterComplex_chains, chainsText_app.
  cbn [chainsText Nat.add]. now rewrite !append_assoc.
Qed.

Lemma stemNodes_nth (l1 l2 : list Stem) (stem : Stem) : forall index,
  nth_error (stemNodes (l1 ++ stem :: l2) index) (length l1)
  = Some (stemNode (index + length l1) stem).
Proof.
  induction l1 as [|s l1 IH]; intro index.
  - cbn. now rewrite Nat.add_0_r.
  - cbn [app stemNodes length nth_error]. rewrite IH. now rewrite Nat.add_succ_comm.
Qed.

Lemma graphOf_nth (l1 l2 : list Stem) (stem : Stem) :
  nth_error (graphOf (l1 ++ stem :: l2)) (length l1) = Some (stemNode (length l1) stem).
Proof.
  unfold graphOf. rewrite nth_error_app1.
  - exact (stemNodes_nth l1 l2 stem 0).
  - apply nth_error_Some. rewrite (stemNodes_nth l1 l2 stem 0). discriminate.
Qed.

(** The call of [spawn] hands over the text of the graph. *)
Lemma renderMix_graph (B : Buffer -> string) (dirname : string -> string)
  (ffmpeg : string) (w : World) (options : RenderOptions) :
  fs_mkdir w (dirname (outputPath options)) = None ->
  exists tail,
    spawned (renderMix N B dirname ffmpeg w options)
    = [(ffmpeg,
        ("-y" :: inputFlags (stems options)
         ++ "-filter_complex" :: buildFilterComplex N (stems options) :: tail)%list)].
Proof.
  intro H. rewrite (renderMix_spawns N B dirname ffmpeg w options H). cbn [spawned].
  rewrite buildArgs_spec. cbn [app]. eexists. reflexivity.
Qed.

End ChainFacts.

(** ** The pan law *)

(** C1. Take the stem at any place of the list that [renderMix] is given,
    with a pan [p] in [-1, 1], and let [l] be [1] if [p <= 0] and [1 - p]
    otherwise, [r] be [1] if [p >= 0] and [1 + p] otherwise. The text of the
    graph that [renderMix] hands to the engine is the chains of the stems
    before it, then the chain of this stem, which is its volume stage
    followed, unless [p] is zero, by the pan stage with [FL = l] and
    [FR = r]; the node of the stem in the graph scales the left channel by
    [l] and the right channel by [r]. Both are [1] when [p] is zero; they are
    [0] and [1] at [p = 1], [1] and [0] at [p = -1]. *)
Theorem C1_pan_law (N : number -> string) (B : Buffer -> string)
  (dirname : string -> string) (ffmpeg : string) (w : World) (options : RenderOptions)
  (l1 l2 : list Stem) (stem : Stem) :
  stems options = (l1 ++ stem :: l2)%list ->
  fs_mkdir w (dirname (outputPath options)) = None ->
  (-1 <=? pan stem)%float = true ->
  (pan stem <=? 1)%float = true ->
  let p := pan stem in
  let l := if (p <=? 0)%float then 1%float else (1 - p)%float in
  let r := if (0 <=? p)%float then 1%float else (1 + p)%float in
  let index := nat_toString (length l1) in
  let chain :=
    "[" ++ index ++ ":a]volume=" ++ N (stemVolume stem)
    ++ (if is_zero p then ""
        else ",pan=stereo|FL=" ++ N l ++ "*c0|FR=" ++ N r ++ "*c1")
    ++ "[a" ++ index ++ "]" in
  (exists after tail,
      buildFilterComplex N (stems options) = chainsText N l1 0 ++ chain ++ ";" ++ after
      /\ spawned (renderMix N B dirname ffmpeg w options)
         = [(ffmpeg,
             ("-y" :: inputFlags (stems options)
              ++ "-filter_complex" :: buildFilterComplex N (stems options) :: tail)%list)])
  /\ (buildFilterComplex N (stems options) = printGraph N (graphOf (stems options))
      /\ exists node,
          nth_error (graphOf (stems options)) (length l1) = Some node
          /\ printNode N node = chain
          /\ channelGains (node_filters node) = (l, r))
  /\ (is_zero p = true -> (l, r) = (1%float, 1%float))
  /\ (p = 1%float -> (l, r) = (0%float, 1%float))
  /\ (p = (-1)%float -> (l, r) = (1%float, 0%float)).
Proof.
  intros Hstems Hdir Hlo Hhi p l r index chain.
  assert (Hnan : is_nan p = false) by exact (leb_not_nan _ _ Hhi).
  assert (Hchain : stemFilter N (length l1) stem = chain
                   /\ channelGains (node_filters (stemNode (length l1) stem)) = (l, r)).
  { rewrite stemFilter_text. unfold stemNode; cbn [node_filters channelGains].
    subst chain index. destruct (is_zero p) eqn:Hz.
    - destruct (stemPan_falsy stem) as [_ ->]; [unfold falsy; fold p; now rewrite Hz|].
      destruct (is_zero_leb p Hz) as [H1 H2].
      subst l r. rewrite H1, H2. now split.
    - destruct (stemPan_truthy stem) as [-> ->]; [unfold falsy; fold p; now rewrite Hz, Hnan|].
      now split. }
  destruct Hchain as [Hchain Hgains].
  split; [|split; [|split; [|split]]].
  - destruct (renderMix_graph N B dirname ffmpeg w options Hdir) as [tail Htail].
    eexists. exists tail. split; [|exact Htail].
    rewrite Hstems, buildFilterComplex_chain, Hchain. reflexivity.
  - split; [apply printGraph_graphOf|].
    exists (stemNode (length l1) stem). rewrite Hstems.
    split; [apply graphOf_nth|]. split; [|exact Hgains].
    now rewrite <- stemFilter_printNode.
  - intro Hz. destruct (is_zero_leb p Hz) as [H1 H2]. subst l r. now rewrite H1, H2.
  - intro H1. subst l r. rewrite H1. reflexivity.
  - intro H1. subst l r. rewrite H1. reflexivity.
Qed.

Lemma C1_pan_law_witness :
  exists after tail,
    buildFilterComplex Sample.Number_toString [Sample.drums; Sample.bass; Sample.pad]
    = "[0:a]volume=0.5[a0];" ++ "[1:a]volume=1,pan=stereo|FL=1*c0|FR=0.5*c1[a1]" ++ ";"
      ++ after
    /\ spawned (Sample.renderMix (Sample.world [] 0)
                  (Sample.job [Sample.drums; Sample.bass; Sample.pad] Sample.wav))
       = [("ffmpeg",
           ("-y" :: inputFlags [Sample.drums; Sample.bass; Sample.pad]
            ++ "-filter_complex"
               :: buildFilterComplex Sample.Number_toString
                    [Sample.drums; Sample.bass; Sample.pad]
               :: tail)%list)].
Proof.
  exact (proj1 (C1_pan_law Sample.Number_toString Sample.Buffer_toString
                  Sample.path_dirname Sample.FFMPEG_PATH (Sample.world [] 0)
                  (Sample.job [Sample.drums; Sample.bass; Sample.pad] Sample.wav)
                  [Sample.drums] [Sample.pad] Sample.bass
                  eq_refl eq_refl eq_refl eq_refl)).
Defined.

(** ** Falsy gain and pan *)

(** C10. Take the stem at any place of the list that [renderMix] is given.
    When its volume is zero, its chain in the text of the graph that
    [renderMix] hands to the engine begins with the volume stage
    [volume=1], not [volume=0], and the node of the stem scales every sample
    by 1. When its pan is falsy (zero or NaN), its chain in that text is the
    volume stage alone, with no pan stage. *)
Theorem C10_falsy_gain_and_pan (N : number -> string) (B : Buffer -> string)
  (dirname : string -> string) (ffmpeg : string) (w : World) (options : RenderOptions)
  (l1 l2 : list Stem) (stem : Stem) :
  stems options = (l1 ++ stem :: l2)%list ->
  fs_mkdir w (dirname (outputPath options)) = None ->
  let index := nat_toString (length l1) in
  (exists tail,
      spawned (renderMix N B dirname ffmpeg w options)
      = [(ffmpeg,
          ("-y" :: inputFlags (stems options)
           ++ "-filter_complex" :: buildFilterComplex N (stems options) :: tail)%list)])
  /\ (buildFilterComplex N (stems options) = printGraph N (graphOf (stems options))
      /\ exists node,
          nth_error (graphOf (stems options)) (length l1) = Some node
          /\ (is_zero (volume stem) = true ->
              volumeFactor (node_filters node) = Some 1%float)
          /\ (falsy (pan stem) = true ->
              node_filters node = [Volume (stemVolume stem)]
              /\ has_pan (node_filters node) = false))
  /\ (is_zero (volume stem) = true ->
      stemVolume stem = 1%float
      /\ exists rest,
          buildFilterComplex N (stems options)
          = chainsText N l1 0 ++ "[" ++ index ++ ":a]volume=" ++ N 1%float ++ rest)
  /\ (falsy (pan stem) = true ->
      exists after,
        buildFilterComplex N (stems options)
        = chainsText N l1 0 ++ "[" ++ index ++ ":a]volume=" ++ N (stemVolume stem)
          ++ "[a" ++ index ++ "];" ++ after).
Proof.
  intros Hstems Hdir index. subst index.
  split; [exact (renderMix_graph N B dirname ffmpeg w options Hdir)|].
  split; [|split].
  - split; [apply printGraph_graphOf|].
    exists (stemNode (length l1) stem). rewrite Hstems.
    split; [apply graphOf_nth|]. unfold stemNode; cbn [node_filters volumeFactor].
    split.
    + intro Hz. unfold stemVolume, or_else, falsy. now rewrite Hz.
    + intro Hp. destruct (stemPan_falsy stem Hp) as [_ ->]. now split.
  - intro Hz.
    assert (Hv : stemVolume stem = 1%float).
    { unfold stemVolume, or_else, falsy. now rewrite Hz. }
    split; [exact Hv|].
    rewrite Hstems, buildFilterComplex_chain, stemFilter_text, Hv.
    eexists. repeat rewrite append_assoc. reflexivity.
  - intro Hp. destruct (stemPan_falsy stem Hp) as [_ Hneq].
    rewrite Hstems, buildFilterComplex_chain, stemFilter_text, Hneq.
    exists (chainsText N l2 (S (length l1))
            ++ printNode N (outNode (length (l1 ++ stem :: l2)))).
    generalize (chainsText N l2 (S (length l1))
                ++ printNode N (outNode (length (l1 ++ stem :: l2)))) as after.
    generalize (chainsText N l1 0) as before.
    generalize (nat_toString (length l1)) as index.
    intros index before after.
    repeat rewrite append_assoc; simpl; repeat rewrite append_assoc; reflexivity.
Qed.

Lemma C10_falsy_gain_and_pan_witness :
  exists rest,
    buildFilterComplex Sample.Number_toString [Sample.drums; Sample.vocals]
    = "[0:a]volume=0.5[a0];" ++ "[" ++ "1" ++ ":a]volume=" ++ "1" ++ rest.
Proof.
  exact (proj2 (proj1 (proj2 (proj2
           (C10_falsy_gain_and_pan Sample.Number_toString Sample.Buffer_toString
              Sample.path_dirname Sample.FFMPEG_PATH (Sample.world [] 0)
              (Sample.job [Sample.drums; Sample.vocals] Sample.wav)
              [Sample.drums] [] Sample.vocals eq_refl eq_refl))) eq_refl)).
Defined.

(** ** Examples *)

Example render_four_stems :
  Sample.renderMix (Sample.world ["Invalid data found"] 1)
    (Sample.job [Sample.drums; Sample.bass; Sample.vocals; Sample.pad] Sample.wav)
  = mkRun (Some (Rejected (new_Error "FFmpeg failed with code 1: Invalid data found")))
      [("ffmpeg",
        ["-y"; "-i"; "/uploads/drums.wav"; "-i"; "/uploads/bass.wav";
         "-i"; "/uploads/vocals.wav"; "-i"; "/uploads/pad.wav";
         "-filter_complex";
         "[0:a]volume=0.5[a0];[1:a]volume=1,pan=stereo|FL=1*c0|FR=0.5*c1[a1];[2:a]volume=1,pan=stereo|FL=0*c0|FR=1*c1[a2];[3:a]volume=0.25,pan=stereo|FL=1*c0|FR=0*c1[a3];[a0][a1][a2][a3]amix=inputs=4:duration=longest[out]";
         "-map"; "[out]"; "-ar"; "44100"; "-f"; "wav"; "-acodec"; "pcm_s16le";
         "/downloads/mix.wav"])].
Proof. reflexivity. Qed.

Example render_readonly :
  Sample.renderMix Sample.readonlyWorld (Sample.job [Sample.drums] Sample.mp3)
  = mkRun (Some (Rejected Sample.EACCES)) [].
Proof. reflexivity. Qed.

Example probe_audio_file :
  probe_promise (Sample.analyzeAudio
                   (Sample.probeWorld Sample.audioDocument (Some 1024%float))
                   "/uploads/take.wav")
  = Some (Resolved (mkAudioMetadata 12.5 48000 (Some (JNumber 16)) (Some (JNumber 2))
                      (Some (JString "wav")) None 1024)).
Proof. reflexivity. Qed.

(** ** The order of the arguments *)

(** C8. Whenever the output directory can be made, [renderMix] spawns the
    engine once, with these arguments in this order: the overwrite flag [-y];
    [-i] and the file of each stem, in stem order; [-filter_complex] and the
    text of the graph; [-map] and [[out]]; [-ar] and the sample rate; the
    flags of the format ([-f wav -acodec pcm_s<bitDepth>le] for wav,
    [-f mp3 -b:a 320k] for mp3, nothing for any other format); the output
    path. *)
Theorem C8_argument_order (N : number -> string) (B : Buffer -> string)
  (dirname : string -> string) (ffmpeg : string) (w : World) (options : RenderOptions) :
  fs_mkdir w (dirname (outputPath options)) = None ->
  spawned (renderMix N B dirname ffmpeg w options)
  = [(ffmpeg,
      ("-y" :: flat_map (fun stem => ["-i"; filePath stem]) (stems options)
       ++ ["-filter_complex"; buildFilterComplex N (stems options)]
       ++ ["-map"; "[out]"]
       ++ ["-ar"; N (sampleRate (settings options))]
       ++ (if String.eqb (format (settings options)) "wav" then
             ["-f"; "wav"; "-acodec";
              ("pcm_s" ++ N (bitDepth (settings options)) ++ "le")%string]
           else if String.eqb (format (settings options)) "mp3" then
             ["-f"; "mp3"; "-b:a"; "320k"]
           else [])
       ++ [outputPath options])%list)].
Proof.
  intro H. rewrite (renderMix_spawns _ _ _ _ _ _ H). cbn [spawned].
  rewrite buildArgs_spec. reflexivity.
Qed.

Lemma C8_argument_order_witness :
  spawned (Sample.renderMix (Sample.world [] 0)
             (Sample.job [Sample.drums; Sample.bass] Sample.wav))
  = [("ffmpeg",
      ["-y"; "-i"; "/uploads/drums.wav"; "-i"; "/uploads/bass.wav";
       "-filter_complex";
       "[0:a]volume=0.5[a0];[1:a]volume=1,pan=stereo|FL=1*c0|FR=0.5*c1[a1];[a0][a1]amix=inputs=2:duration=longest[out]";
       "-map"; "[out]"; "-ar"; "44100"; "-f"; "wav"; "-acodec"; "pcm_s16le";
       "/downloads/mix.wav"])].
Proof.
  exact (C8_argument_order Sample.Number_toString Sample.Buffer_toString
           Sample.path_dirname Sample.FFMPEG_PATH (Sample.world [] 0)
           (Sample.job [Sample.drums; Sample.bass] Sample.wav) eq_refl).
Defined.

(** ** Determinism of the graph *)

Lemma spawned_args (N : number -> string) (B : Buffer -> string)
  (dirname : string -> string) (ffmpeg : string) (w : World) (options : RenderOptions)
  (cmd : string) (args : list string) :
  In (cmd, args) (spawned (renderMix N B dirname ffmpeg w options)) ->
  args = buildArgs N options.
Proof.
  unfold renderMix.
  destruct (fs_mkdir w (dirname (outputPath options))); cbn [spawned In].
  - contradiction.
  - intros [H | []]. now inversion H.
Qed.

(** C7. The text of the graph is a function of the stem list alone: two
    calls with the same stems build the same text, and whatever the world,
    the settings and the output path of each call, the engine is given the
    same input files followed by the same graph text. *)
Theorem C7_graph_deterministic (N : number -> string) (B : Buffer -> string)
  (dirname1 dirname2 : string -> string) (ffmpeg1 ffmpeg2 : string)
  (w1 w2 : World) (o1 o2 : RenderOptions) :
  stems o1 = stems o2 ->
  buildFilterComplex N (stems o1) = buildFilterComplex N (stems o2)
  /\ forall cmd1 args1 cmd2 args2,
      In (cmd1, args1) (spawned (renderMix N B dirname1 ffmpeg1 w1 o1)) ->
      In (cmd2, args2) (spawned (renderMix N B dirname2 ffmpeg2 w2 o2)) ->
      exists tail1 tail2,
        let inputs := ("-y" :: inputFlags (stems o1))%list in
        let graph := buildFilterComplex N (stems o1) in
        args1 = (inputs ++ "-filter_complex" :: graph :: tail1)%list
        /\ args2 = (inputs ++ "-filter_complex" :: graph :: tail2)%list.
Proof.
  intro E. split; [now rewrite E|].
  intros cmd1 args1 cmd2 args2 H1 H2.
  apply spawned_args in H1. apply spawned_args in H2. subst args1 args2.
  rewrite !buildArgs_spec, <- E. cbn [app].
  eexists. eexists. cbv zeta. cbn [app]. split; reflexivity.
Qed.

Lemma C7_graph_deterministic_witness :
  buildFilterComplex Sample.Number_toString [Sample.drums; Sample.pad]
  = "[0:a]volume=0.5[a0];[1:a]volume=0.25,pan=stereo|FL=1*c0|FR=0*c1[a1];[a0][a1]amix=inputs=2:duration=longest[out]".
Proof.
  exact (eq_trans
           (proj1 (C7_graph_deterministic Sample.Number_toString Sample.Buffer_toString
                     Sample.path_dirname Sample.path_dirname
                     Sample.FFMPEG_PATH Sample.FFMPEG_PATH
                     (Sample.world [] 0) (Sample.world ["late"] 1)
                     (Sample.job [Sample.drums; Sample.pad] Sample.wav)
                     (Sample.job [Sample.drums; Sample.pad] Sample.mp3) eq_refl))
           eq_refl).
Defined.

(** ** Exit codes *)

(** A chunk of ASCII text is decoded to itself. *)
Lemma Buffer_toString_ascii (chunk : Buffer) :
  forallb (Node.within 0 127) chunk = true ->
  Node.Buffer_toString chunk = string_of_list_byte chunk.
Proof.
  induction chunk as [|b chunk IH]; [reflexivity|].
  cbn [forallb]. intro H. apply andb_prop in H as [Hb H].
  cbn [Node.Buffer_toString]. rewrite Hb, (IH H). reflexivity.
Qed.

Lemma stderrText_lossless (B : Buffer -> string) (events : list ChildEvent) :
  lossless B events ->
  stderrText B events = string_of_list_byte (stderrBytes events).
Proof.
  induction 1 as [|ev events Hev _ IH]; [reflexivity|].
  destruct ev; cbn [stderrText stderrBytes]; try exact IH.
  now rewrite string_of_list_byte_app, Hev, IH.
Qed.

(** C5, as stated, fails: the child writes the two bytes of one character
    (195, 169) to stderr in two chunks and closes with code 1; each chunk is
    decoded on its own, so the message ends with two replacement characters
    and does not hold the two bytes. *)
Lemma C5_lossy_decoding_counterexample :
  outcome (renderMix Sample.Number_toString Node.Buffer_toString Sample.path_dirname
             Sample.FFMPEG_PATH
             (mkWorld (fun _ => None)
                (fun _ _ => [StderrData [Byte.xc3]; StderrData [Byte.xa9];
                             Close (Some 1%Z)])
                (fun _ => false))
             (Sample.job [Sample.drums] Sample.wav))
  = Some (Rejected (new_Error ("FFmpeg failed with code 1: "
                               ++ Node.replacement ++ Node.replacement)))
  /\ ~ contains ("FFmpeg failed with code 1: " ++ Node.replacement ++ Node.replacement)
               (string_of_list_byte [Byte.xc3; Byte.xa9]).
Proof.
  split; [reflexivity|].
  intro H. apply contains_includes in H. discriminate H.
Qed.

(** C5, amended. When the child writes to its streams and then closes with a
    code other than zero, the promise of [renderMix] is rejected with an
    error whose message is [FFmpeg failed with code <code>: ] followed by
    the text of every chunk of stderr, each decoded as it arrives, in the
    order of arrival. When the decoding keeps every chunk as it is, as that
    of a chunk of ASCII text does, the message is that prefix followed by
    the very bytes the child wrote to stderr, and so contains them. *)
Theorem C5_engine_failure_keeps_stderr (N : number -> string) (B : Buffer -> string)
  (dirname : string -> string) (ffmpeg : string) (w : World) (options : RenderOptions)
  (prefix rest : list ChildEvent) (code : option Z) :
  fs_mkdir w (dirname (outputPath options)) = None ->
  child w ffmpeg (buildArgs N options) = (prefix ++ Close code :: rest)%list ->
  forallb isData prefix = true ->
  code_is_zero code = false ->
  (exists e,
      outcome (renderMix N B dirname ffmpeg w options) = Some (Rejected e)
      /\ message e = "FFmpeg failed with code " ++ code_toString code ++ ": "
                     ++ stderrText B prefix
      /\ (lossless B prefix ->
          message e = "FFmpeg failed with code " ++ code_toString code ++ ": "
                      ++ string_of_list_byte (stderrBytes prefix)
          /\ contains (message e) (string_of_list_byte (stderrBytes prefix))))
  /\ (forall chunk,
         forallb (Node.within 0 127) chunk = true ->
         Node.Buffer_toString chunk = string_of_list_byte chunk).
Proof.
  intros Hdir Hchild Hdata Hcode. split; [|exact Buffer_toString_ascii].
  rewrite (renderMix_spawns _ _ _ _ _ _ Hdir). cbn [outcome].
  rewrite Hchild, (runFfmpeg_close _ _ _ _ _ Hdata), Hcode.
  eexists. split; [reflexivity|]. cbn [message new_Error].
  split; [reflexivity|].
  intro Hl. rewrite (stderrText_lossless B prefix Hl). split; [reflexivity|].
  exists ("FFmpeg failed with code " ++ code_toString code ++ ": "), "".
  now rewrite append_nil_r, !append_assoc.
Qed.

Lemma C5_engine_failure_keeps_stderr_witness :
  exists e,
    outcome (renderMix Sample.Number_toString Node.Buffer_toString Sample.path_dirname
               Sample.FFMPEG_PATH (Sample.world ["drums.wav: "; "No such file"] 1)
               (Sample.job [Sample.drums] Sample.wav))
    = Some (Rejected e)
    /\ message e = "FFmpeg failed with code 1: drums.wav: No such file"
    /\ contains (message e) "drums.wav: No such file".
Proof.
  destruct (proj1 (C5_engine_failure_keeps_stderr Sample.Number_toString
                     Node.Buffer_toString Sample.path_dirname Sample.FFMPEG_PATH
                     (Sample.world ["drums.wav: "; "No such file"] 1)
                     (Sample.job [Sample.drums] Sample.wav)
                     [StderrData (Sample.ascii "drums.wav: ");
                      StderrData (Sample.ascii "No such file")]
                     [] (Some 1%Z) eq_refl eq_refl eq_refl eq_refl))
    as (e & Houtcome & Hmessage & Hbytes).
  exists e. split; [exact Houtcome|]. split; [exact Hmessage|].
  apply Hbytes. repeat constructor.
Defined.

(** C4, as stated, fails: the child closes with code 0, the output file is
    not on disk, and the promise is resolved with the output path. *)
Lemma C4_missing_output_counterexample :
  fs_exists (Sample.world [] 0) "/downloads/mix.wav" = false
  /\ outcome (Sample.renderMix (Sample.world [] 0)
                (Sample.job [Sample.drums; Sample.bass] Sample.wav))
     = Some (Resolved "/downloads/mix.wav").
Proof. split; reflexivity. Qed.

(** C4, amended. When the child writes to its streams and then closes with
    code 0, the promise of [renderMix] is resolved with the output path,
    whichever files are on disk: the output file is not looked for. *)
Theorem C4_exit_zero_resolves (N : number -> string) (B : Buffer -> string)
  (dirname : string -> string) (ffmpeg : string) (w : World) (options : RenderOptions)
  (prefix rest : list ChildEvent) :
  fs_mkdir w (dirname (outputPath options)) = None ->
  child w ffmpeg (buildArgs N options) = (prefix ++ Close (Some 0%Z) :: rest)%list ->
  forallb isData prefix = true ->
  forall present : string -> bool,
    outcome (renderMix N B dirname ffmpeg (mkWorld (fs_mkdir w) (child w) present) options)
    = Some (Resolved (outputPath options)).
Proof.
  intros Hdir Hchild Hdata present.
  rewrite renderMix_spawns by exact Hdir. cbn [outcome child].
  rewrite Hchild, (runFfmpeg_close _ _ _ _ _ Hdata). reflexivity.
Qed.

Lemma C4_exit_zero_resolves_witness :
  outcome (Sample.renderMix (mkWorld (fun _ => None)
                               (fun _ _ => [StderrData (Sample.ascii "size=1kB"); Close (Some 0%Z)])
                               (fun _ => false))
             (Sample.job [Sample.drums] Sample.mp3))
  = Some (Resolved "/downloads/mix.wav").
Proof.
  exact (C4_exit_zero_resolves Sample.Number_toString Sample.Buffer_toString
           Sample.path_dirname Sample.FFMPEG_PATH
           (mkWorld (fun _ => None)
              (fun _ _ => [StderrData (Sample.ascii "size=1kB"); Close (Some 0%Z)])
              (fun _ => true))
           (Sample.job [Sample.drums] Sample.mp3)
           [StderrData (Sample.ascii "size=1kB")] [] eq_refl eq_refl eq_refl
           (fun _ => false)).
Defined.

(** ** The empty stem list *)

(** C2, as stated, fails: with no stem, the engine is spawned and the promise
    is resolved. *)
Lemma C2_empty_stem_list_counterexample :
  stems (Sample.job [] Sample.wav) = []
  /\ outcome (Sample.renderMix (Sample.world [] 0) (Sample.job [] Sample.wav))
     = Some (Resolved "/downloads/mix.wav")
  /\ spawned (Sample.renderMix (Sample.world [] 0) (Sample.job [] Sample.wav))
     = [("ffmpeg",
         ["-y"; "-filter_complex"; "[a0]acopy[out]"; "-map"; "[out]"; "-ar"; "44100";
          "-f"; "wav"; "-acodec"; "pcm_s16le"; "/downloads/mix.wav"])].
Proof. repeat split. Qed.

(** C2, amended. With no stem and an output directory that can be made,
    [renderMix] raises no error of its own: it spawns the engine once, with no
    input file among the arguments, and its promise is the one the events of
    the child settle, resolved with the output path when the child closes
    with code 0. *)
Theorem C2_empty_stem_list_is_rendered (N : number -> string) (B : Buffer -> string)
  (dirname : string -> string) (ffmpeg : string) (w : World) (options : RenderOptions) :
  stems options = [] ->
  fs_mkdir w (dirname (outputPath options)) = None ->
  let run := renderMix N B dirname ffmpeg w options in
  spawned run
  = [(ffmpeg,
      ("-y" :: "-filter_complex" :: buildFilterComplex N [] :: "-map" :: "[out]"
       :: "-ar" :: N (sampleRate (settings options))
       :: codecFlags N (settings options) ++ [outputPath options])%list)]
  /\ outcome run
     = promise (runFfmpeg B (outputPath options) (child w ffmpeg (buildArgs N options)))
  /\ forall prefix rest,
      child w ffmpeg (buildArgs N options) = (prefix ++ Close (Some 0%Z) :: rest)%list ->
      forallb isData prefix = true ->
      outcome run = Some (Resolved (outputPath options)).
Proof.
  intros Hstems Hdir run. subst run.
  rewrite renderMix_spawns by exact Hdir. cbn [spawned outcome].
  split; [|split].
  - rewrite buildArgs_spec, Hstems. reflexivity.
  - reflexivity.
  - intros prefix rest Hchild Hdata.
    rewrite Hchild, (runFfmpeg_close _ _ _ _ _ Hdata). reflexivity.
Qed.

Lemma C2_empty_stem_list_is_rendered_witness :
  length (spawned (Sample.renderMix (Sample.world ["Output file is empty"] 1)
                     (Sample.job [] Sample.mp3))) = 1%nat.
Proof.
  exact (f_equal (@length _)
           (proj1 (C2_empty_stem_list_is_rendered Sample.Number_toString
                     Sample.Buffer_toString Sample.path_dirname Sample.FFMPEG_PATH
                     (Sample.world ["Output file is empty"] 1)
                     (Sample.job [] Sample.mp3) eq_refl eq_refl))).
Defined.

(** ** Effects *)

(** C3, as stated, fails: a stem with the effect [sidechain] is rendered, its
    chain is the one of its volume and pan, and the engine is spawned. *)
Lemma C3_unsupported_effect_counterexample :
  effects Sample.pad = Some ["sidechain"]
  /\ outcome (Sample.renderMix (Sample.world [] 0) (Sample.job [Sample.pad] Sample.flac))
     = Some (Resolved "/downloads/mix.wav")
  /\ spawned (Sample.renderMix (Sample.world [] 0) (Sample.job [Sample.pad] Sample.flac))
     = [("ffmpeg",
         ["-y"; "-i"; "/uploads/pad.wav"; "-filter_complex";
          "[0:a]volume=0.25,pan=stereo|FL=1*c0|FR=0*c1[a0];[a0]acopy[out]";
          "-map"; "[out]"; "-ar"; "96000"; "/downloads/mix.wav"])].
Proof. repeat split. Qed.

(** C3, amended. The effect lists play no part: whatever effects the stems
    are given, the text of the graph is the same, and so are the calls of
    [spawn] and the promise of [renderMix]. *)
Theorem C3_effects_are_ignored (N : number -> string) (B : Buffer -> string)
  (dirname : string -> string) (ffmpeg : string) (w : World)
  (f : Stem -> option (list string)) (l : list Stem) (out : string) (s : Settings) :
  let l' := map (fun stem => withEffects (f stem) stem) l in
  buildFilterComplex N l' = buildFilterComplex N l
  /\ renderMix N B dirname ffmpeg w (mkRenderOptions l' out s)
     = renderMix N B dirname ffmpeg w (mkRenderOptions l out s).
Proof.
  intro l'. subst l'. split.
  - unfold buildFilterComplex. now rewrite stemsLoop_effects.
  - unfold renderMix; cbn [outputPath]. now rewrite buildArgs_effects.
Qed.

(** ** The probe *)

Section ProbeFacts.

Variable B : Buffer -> string.
Variable J : string -> Exn json.
Variable pf pi : value -> number.
Variable ffprobe : string.

Lemma onProbeEvent_data (w : ProbeWorld) (file : string) (prefix : list ChildEvent) :
  forall st,
    forallb isData prefix = true ->
    uncaught st = None ->
    fold_left (onProbeEvent B J pf pi w file) prefix st
    = mkProbeState (output st ++ stdoutText B prefix) (error st ++ stderrText B prefix)
                   (probe_promise st) None.
Proof.
  induction prefix as [|ev prefix IH]; intros st H Hu.
  - simpl. rewrite !append_nil_r. destruct st; cbn in *. now subst.
  - cbn [forallb] in H. apply andb_prop in H as [Hev H].
    cbn [fold_left]. unfold onProbeEvent at 2. rewrite Hu.
    destruct ev; try discriminate;
      (rewrite IH; [|exact H|reflexivity]);
      cbn [output error probe_promise stdoutText stderrText];
      now rewrite append_assoc.
Qed.

Lemma onProbeEvent_settled (w : ProbeWorld) (file : string) (events : list ChildEvent) :
  forall st s,
    probe_promise st = Some s ->
    probe_promise (fold_left (onProbeEvent B J pf pi w file) events st) = Some s.
Proof.
  induction events as [|ev events IH]; intros st s H; [exact H|].
  cbn [fold_left]. apply IH. unfold onProbeEvent.
  destruct (uncaught st); [exact H|].
  destruct ev; cbn [probe_promise]; try exact H.
  now rewrite H.
Qed.

(** The state when the first event that is not data is [close]. *)
Lemma analyzeAudio_close (w : ProbeWorld) (file : string)
  (prefix rest : list ChildEvent) (code : option Z) :
  probe_child w ffprobe (probeArgs file) = (prefix ++ Close code :: rest)%list ->
  forallb isData prefix = true ->
  probe_promise (analyzeAudio B J pf pi ffprobe w file)
  = Some (onProbeClose J pf pi w file
            (mkProbeState (stdoutText B prefix) (stderrText B prefix) None None) code)
  /\ (rest = [] -> uncaught (analyzeAudio B J pf pi ffprobe w file) = None).
Proof.
  intros Hchild Hdata. unfold analyzeAudio. rewrite Hchild, fold_left_app.
  rewrite (onProbeEvent_data w file prefix (mkProbeState "" "" None None) Hdata eq_refl).
  cbn [output error probe_promise append fold_left]. split.
  - apply onProbeEvent_settled. reflexivity.
  - intros ->. reflexivity.
Qed.

Lemma find_audio_found (items : list json) (s : json) :
  find_audio items = inr (Some s) ->
  existsb (fun s => match s with
                    | JObject m => is_audio (lookup "codec_type" m)
                    | _ => false
                    end) items = true.
Proof.
  induction items as [|s0 items IH]; [discriminate|].
  cbn [find_audio existsb].
  destruct s0 as [| b | n | t | l | m]; cbn [getProp bind ret throw is_audio orb];
    try discriminate; try exact IH.
  destruct (is_audio (lookup "codec_type" m)); [reflexivity | exact IH].
Qed.

(** What the [try] block yields. *)
Lemma readMetadata_cases (w : ProbeWorld) (file out : string) :
  (exists e, readMetadata J pf pi w file out = inl e)
  \/ readMetadata J pf pi w file out
     = inr (Rejected (new_Error "No audio stream found in file"))
  \/ (exists md data size,
         readMetadata J pf pi w file out = inr (Resolved md)
         /\ J out = inr data
         /\ hasAudioStream data = true
         /\ fs_statSync w file = inr size).
Proof.
  unfold readMetadata.
  destruct (J out) as [e | data] eqn:HJ; cbn [bind]; [left; now exists e|].
  destruct (getProp (Some data) "streams") as [e | streams] eqn:Hs; cbn [bind];
    [left; now exists e|].
  destruct (call_find streams) as [e | audioStream] eqn:Hf; cbn [bind];
    [left; now exists e|].
  destruct (truthy audioStream) eqn:Ht; cbn [negb]; [|right; left; reflexivity].
  assert (Haudio : hasAudioStream data = true).
  { destruct audioStream as [s|]; [|discriminate].
    destruct data as [| b | n | t | l | m]; cbn [getProp ret throw] in Hs;
      try discriminate; injection Hs as <-;
      try (cbn [call_find throw] in Hf; discriminate).
    cbn [hasAudioStream].
    destruct (lookup "streams" m) as [[| b | n | t | items | m']|];
      cbn [call_find throw] in Hf; try discriminate.
    exact (find_audio_found _ _ Hf). }
  destruct (fs_statSync w file) as [e | size] eqn:Hstat; cbn [bind];
    [left; now exists e|].
  repeat match goal with
         | |- context [bind ?m _] =>
             destruct m as [e | ?]; cbn [bind]; [left; now exists e|]
         end.
  right; right. do 3 eexists. repeat split; eauto.
Qed.

End ProbeFacts.


Section ProbeSuccess.

Variable J : string -> Exn json.
Variable pf pi : value -> number.

Lemma find_audio_object (items : list json) (s : json) :
  find_audio items = inr (Some s) -> exists a, s = JObject a.
Proof.
  induction items as [|s0 items IH]; [discriminate|].
  cbn [find_audio].
  destruct s0 as [| b | n | t | l | m]; cbn [getProp bind ret throw is_audio];
    try discriminate; try exact IH.
  destruct (is_audio (lookup "codec_type" m)); [|exact IH].
  intro H. injection H as <-. now exists m.
Qed.




End ProbeSuccess.



(** * Further properties *)

(** ** The first event that is not data *)

Lemma first_event (events : list ChildEvent) :
  forallb isData events = true
  \/ exists prefix ev rest,
      events = (prefix ++ ev :: rest)%list
      /\ forallb isData prefix = true
      /\ isData ev = false.
Proof.
  induction events as [|ev events IH]; [now left|].
  destruct (isData ev) eqn:Hev.
  - destruct IH as [IH | (prefix & ev' & rest & -> & Hp & Hev')].
    + left. cbn [forallb]. now rewrite Hev, IH.
    + right. exists (ev :: prefix), ev', rest. cbn [forallb app].
      now rewrite Hev, Hp.
  - right. now exists [], ev, events.
Qed.

(** ** renderMix: launch failures, pending promises, stdout *)

Section RenderMore.

Variable N : number -> string.
Variable B : Buffer -> string.
Variable dirname : string -> string.
Variable ffmpeg : string.

Lemma runFfmpeg_error (out : string) (prefix rest : list ChildEvent) (e : Error) :
  forallb isData prefix = true ->
  promise (runFfmpeg B out (prefix ++ ErrorEvent e :: rest)) = Some (Rejected e).
Proof.
  intro H. unfold runFfmpeg. rewrite fold_left_app, (onEvent_data _ _ _ _ H).
  cbn [fold_left stderr promise append].
  apply onEvent_settled. reflexivity.
Qed.

Lemma runFfmpeg_pending (out : string) (events : list ChildEvent) :
  promise (runFfmpeg B out events) = None <-> forallb isData events = true.
Proof.
  split.
  - intro Hp. destruct (first_event events)
      as [H | (prefix & ev & rest & -> & Hdata & Hev)]; [exact H|].
    destruct ev as [chunk | chunk | code | e]; try discriminate.
    + rewrite (runFfmpeg_close _ _ _ _ _ Hdata) in Hp. discriminate.
    + rewrite (runFfmpeg_error _ _ _ _ Hdata) in Hp. discriminate.
  - intro H. unfold runFfmpeg. now rewrite (onEvent_data _ _ _ _ H).
Qed.

Lemma onEvent_notStdout (out : string) (events : list ChildEvent) : forall st,
  fold_left (onEvent B out) (filter notStdout events) st
  = fold_left (onEvent B out) events st.
Proof.
  induction events as [|ev events IH]; intro st; [reflexivity|].
  destruct ev; cbn [filter notStdout fold_left]; rewrite IH; reflexivity.
Qed.

End RenderMore.

(** X1. When the first event of the child that is not data is [error] (the
    engine could not be started), the promise of [renderMix] is rejected
    with that very error, whatever the child emits afterwards. *)
Theorem renderMix_launch_failure (N : number -> string) (B : Buffer -> string)
  (dirname : string -> string) (ffmpeg : string) (w : World) (options : RenderOptions)
  (prefix rest : list ChildEvent) (e : Error) :
  fs_mkdir w (dirname (outputPath options)) = None ->
  child w ffmpeg (buildArgs N options) = (prefix ++ ErrorEvent e :: rest)%list ->
  forallb isData prefix = true ->
  outcome (renderMix N B dirname ffmpeg w options) = Some (Rejected e).
Proof.
  intros Hdir Hchild Hdata.
  rewrite renderMix_spawns by exact Hdir. cbn [outcome].
  rewrite Hchild. now apply runFfmpeg_error.
Qed.

Lemma renderMix_launch_failure_witness :
  outcome (Sample.renderMix
             (mkWorld (fun _ => None)
                (fun _ _ => [ErrorEvent (mkError "Error" "spawn ffmpeg ENOENT");
                             Close (Some (-2)%Z)])
                (fun _ => false))
             (Sample.job [Sample.drums] Sample.wav))
  = Some (Rejected (mkError "Error" "spawn ffmpeg ENOENT")).
Proof.
  exact (renderMix_launch_failure Sample.Number_toString Sample.Buffer_toString
           Sample.path_dirname Sample.FFMPEG_PATH
           (mkWorld (fun _ => None)
              (fun _ _ => [ErrorEvent (mkError "Error" "spawn ffmpeg ENOENT");
                           Close (Some (-2)%Z)])
              (fun _ => false))
           (Sample.job [Sample.drums] Sample.wav)
           [] [Close (Some (-2)%Z)] (mkError "Error" "spawn ffmpeg ENOENT")
           eq_refl eq_refl eq_refl).
Defined.

(** X2. Once the output directory is made, the promise of [renderMix] stays
    pending exactly when the child emits nothing but data: it is settled as
    soon as there is a [close] or an [error], and by nothing else. *)
Theorem renderMix_pending_iff (N : number -> string) (B : Buffer -> string)
  (dirname : string -> string) (ffmpeg : string) (w : World) (options : RenderOptions) :
  fs_mkdir w (dirname (outputPath options)) = None ->
  (outcome (renderMix N B dirname ffmpeg w options) = None
   <-> forallb isData (child w ffmpeg (buildArgs N options)) = true).
Proof.
  intro Hdir. rewrite renderMix_spawns by exact Hdir. cbn [outcome].
  apply runFfmpeg_pending.
Qed.

Lemma renderMix_pending_iff_witness :
  outcome (Sample.renderMix
             (mkWorld (fun _ => None)
                (fun _ _ => [StderrData (Sample.ascii "size=  128kB time=00:00:08")])
                (fun _ => false))
             (Sample.job [Sample.drums] Sample.wav))
  = None.
Proof.
  exact (proj2 (renderMix_pending_iff Sample.Number_toString Sample.Buffer_toString
                  Sample.path_dirname Sample.FFMPEG_PATH
                  (mkWorld (fun _ => None)
                     (fun _ _ => [StderrData (Sample.ascii "size=  128kB time=00:00:08")])
                     (fun _ => false))
                  (Sample.job [Sample.drums] Sample.wav) eq_refl) eq_refl).
Defined.

(** X3. What the child writes to stdout plays no part: a child that emits
    the same events without the chunks of stdout leads [renderMix] to the
    same promise and the same calls of [spawn]. *)
Theorem renderMix_ignores_stdout (N : number -> string) (B : Buffer -> string)
  (dirname : string -> string) (ffmpeg : string) (w : World) (options : RenderOptions) :
  renderMix N B dirname ffmpeg
    (mkWorld (fs_mkdir w) (fun cmd args => filter notStdout (child w cmd args))
             (fs_exists w)) options
  = renderMix N B dirname ffmpeg w options.
Proof.
  unfold renderMix; cbn [fs_mkdir child].
  destruct (fs_mkdir w (dirname (outputPath options))); [reflexivity|].
  unfold runFfmpeg. now rewrite onEvent_notStdout.
Qed.

(** ** Labels *)

Lemma nat_toString_inj (a b : nat) : nat_toString a = nat_toString b -> a = b.
Proof.
  unfold nat_toString. intro H.
  apply Unsigned.to_uint_inj.
  assert (E : NilEmpty.uint_of_string (NilEmpty.string_of_uint (Nat.to_uint a))
              = NilEmpty.uint_of_string (NilEmpty.string_of_uint (Nat.to_uint b)))
    by now rewrite H.
  rewrite !NilEmpty.usu in E. now injection E.
Qed.

Lemma occurs_app (c : ascii) (a b : string) :
  occurs c (a ++ b) = occurs c a || occurs c b.
Proof.
  induction a as [|c' a IH]; [reflexivity|].
  cbn [append occurs]. now rewrite IH, orb_assoc.
Qed.

(** The decimal form of a number holds digits only: no letter occurs in it. *)
Lemma nat_toString_no_v (n : nat) : occurs "v" (nat_toString n) = false.
Proof.
  unfold nat_toString. induction (Nat.to_uint n) as [|d IH|d IH|d IH|d IH|d IH|d IH|d IH|d IH|d IH|d IH];
    cbn [NilEmpty.string_of_uint occurs]; try rewrite IH; reflexivity.
Qed.

Lemma label_inj (prefix : string) (a b : nat) :
  prefix ++ nat_toString a = prefix ++ nat_toString b -> a = b.
Proof.
  intro H. apply nat_toString_inj.
  induction prefix as [|c prefix IH]; [exact H|].
  cbn [append] in H. injection H as H. now apply IH.
Qed.

Lemma NoDup_labels (prefix : string) (start n : nat) :
  NoDup (map (fun i => prefix ++ nat_toString i) (seq start n)).
Proof.
  apply NoDup_map_NoDup_ForallPairs; [|apply seq_NoDup].
  intros a b _ _ H. exact (label_inj _ _ _ H).
Qed.

(** X4. The text that [renderMix] builds for any stem list is the printed
    form of a graph in which every label is written once: the output labels
    of its nodes, [a0], [a1], ... and [out], are pairwise distinct. *)
Theorem graphOf_labels_distinct (N : number -> string) (l : list Stem) :
  buildFilterComplex N l = printGraph N (graphOf l)
  /\ NoDup (map node_output (graphOf l))
  /\ map node_output (graphOf l)
     = (map (fun i => ("a" ++ nat_toString i)%string) (seq 0 (length l)) ++ ["out"])%list.
Proof.
  split; [apply printGraph_graphOf|].
  assert (E : map node_output (graphOf l)
              = (map (fun i => ("a" ++ nat_toString i)%string) (seq 0 (length l)) ++ ["out"])%list).
  { unfold graphOf. rewrite map_app, map_node_output_stemNodes. cbn [map].
    unfold outNode. now destruct (1 <? length l)%nat. }
  split; [|exact E]. rewrite E.
  apply NoDup_app.
  - apply NoDup_labels.
  - constructor; [intros []|constructor].
  - intros a Ha [Hout | []]. subst a.
    apply in_map_iff in Ha as (i & Hi & _). discriminate.
Qed.

(** X5. The text that [renderMix] builds for any stem list is the printed
    form of the chains followed by the node that writes [out], and that
    node reads only labels that the chains write exactly when there is at
    least one stem. With no stem the text is [[a0]acopy[out]]: the node
    reads [a0], which no node writes. *)
Theorem graphOf_closed_iff (N : number -> string) (l : list Stem) :
  buildFilterComplex N l = printGraph N (stemNodes l 0 ++ [outNode (length l)])
  /\ buildFilterComplex N l = chainsText N l 0 ++ printNode N (outNode (length l))
  /\ ((forall label,
          In label (node_inputs (outNode (length l))) ->
          In label (map node_output (stemNodes l 0)))
      <-> l <> [])
  /\ buildFilterComplex N [] = "[a0]acopy[out]".
Proof.
  split; [exact (printGraph_graphOf N l)|].
  split; [apply buildFilterComplex_chains|].
  split; [|reflexivity].
  split.
  - intros H ->. cbn in H. exact (H "a0" (or_introl eq_refl)).
  - intros Hl label. rewrite map_node_output_stemNodes.
    destruct l as [|s1 [|s2 rest]]; [congruence| |].
    + cbn. tauto.
    + unfold outNode, stemLabels.
      change (1 <? length (s1 :: s2 :: rest))%nat with true. cbn [node_inputs]. tauto.
Qed.

(** ** analyzeAudio: exit codes, launch failures, defaults *)

Section ProbeMore.

Variable B : Buffer -> string.
Variable J : string -> Exn json.
Variable pf pi : value -> number.
Variable ffprobe : string.

Lemma onProbeEvent_uncaught (w : ProbeWorld) (file : string) (events : list ChildEvent) :
  forall st e,
    uncaught st = Some e ->
    fold_left (onProbeEvent B J pf pi w file) events st = st.
Proof.
  induction events as [|ev events IH]; intros st e H; [reflexivity|].
  cbn [fold_left]. unfold onProbeEvent at 2. rewrite H. now apply (IH st e).
Qed.

Lemma analyzeAudio_data (w : ProbeWorld) (file : string) :
  forallb isData (probe_child w ffprobe (probeArgs file)) = true ->
  probe_promise (analyzeAudio B J pf pi ffprobe w file) = None.
Proof.
  intro H. unfold analyzeAudio.
  now rewrite (onProbeEvent_data B J pf pi w file _ (mkProbeState "" "" None None) H eq_refl).
Qed.

Lemma analyzeAudio_error (w : ProbeWorld) (file : string)
  (prefix rest : list ChildEvent) (e : Error) :
  probe_child w ffprobe (probeArgs file) = (prefix ++ ErrorEvent e :: rest)%list ->
  forallb isData prefix = true ->
  probe_promise (analyzeAudio B J pf pi ffprobe w file) = None
  /\ uncaught (analyzeAudio B J pf pi ffprobe w file) = Some e.
Proof.
  intros Hchild Hdata. unfold analyzeAudio. rewrite Hchild, fold_left_app.
  rewrite (onProbeEvent_data B J pf pi w file prefix (mkProbeState "" "" None None)
             Hdata eq_refl).
  cbn [fold_left].
  change (onProbeEvent B J pf pi w file
            (mkProbeState ("" ++ stdoutText B prefix) ("" ++ stderrText B prefix) None None)
            (ErrorEvent e))
    with (mkProbeState ("" ++ stdoutText B prefix) ("" ++ stderrText B prefix) None (Some e)).
  erewrite onProbeEvent_uncaught by reflexivity. now split.
Qed.

Lemma value_or_truthy (v d : value) : truthy d = true -> truthy (value_or v d) = true.
Proof. intro H. unfold value_or. now destruct (truthy v) eqn:E. Qed.

Lemma readMetadata_defaults (w : ProbeWorld) (file out : string) (md : AudioMetadata) :
  readMetadata J pf pi w file out = inr (Resolved md) ->
  truthy (md_bitDepth md) = true /\ truthy (channels md) = true
  /\ truthy (md_format md) = true.
Proof.
  unfold readMetadata, ret, throw. intro H.
  repeat match type of H with
         | context [bind ?m _] => destruct m; cbn [bind] in H; try discriminate
         | context [if ?c then _ else _] => destruct c; try discriminate
         end.
  injection H as <-. cbn [md_bitDepth channels md_format].
  repeat split; now apply value_or_truthy.
Qed.

Lemma probe_resolved_inv (w : ProbeWorld) (file : string) (P : AudioMetadata -> Prop) :
  (forall out md, readMetadata J pf pi w file out = inr (Resolved md) -> P md) ->
  forall events st,
    (forall md, probe_promise st = Some (Resolved md) -> P md) ->
    forall md,
      probe_promise (fold_left (onProbeEvent B J pf pi w file) events st)
      = Some (Resolved md) -> P md.
Proof.
  intros HP. induction events as [|ev events IH]; intros st Hst md; [apply Hst|].
  cbn [fold_left]. apply IH. clear md. intros md.
  unfold onProbeEvent. destruct (uncaught st); [apply Hst|].
  destruct ev as [chunk | chunk | code | e]; cbn [probe_promise]; try apply Hst.
  destruct (probe_promise st) as [s|] eqn:Hs; cbn [settle]; [apply Hst|].
  unfold onProbeClose. destruct (negb (code_is_zero code)); [discriminate|].
  destruct (readMetadata J pf pi w file (output st)) as [err | s] eqn:Hr; [discriminate|].
  intro E. injection E as ->. exact (HP _ _ Hr).
Qed.

Lemma find_audio_first (before : list (list (string * json))) (a : list (string * json))
  (after : list json) :
  forallb (fun m => negb (is_audio (lookup "codec_type" m))) before = true ->
  is_audio (lookup "codec_type" a) = true ->
  find_audio (map JObject before ++ JObject a :: after) = inr (Some (JObject a)).
Proof.
  intros Hb Ha. induction before as [|m before IH].
  - cbn [map app find_audio getProp bind ret]. now rewrite Ha.
  - cbn [forallb] in Hb. apply andb_prop in Hb as [Hm Hb].
    cbn [map app find_audio getProp bind ret].
    apply negb_true_iff in Hm. rewrite Hm. now apply IH.
Qed.

End ProbeMore.

(** X6. When the probe writes to its streams and then closes with a code
    other than zero, the promise of [analyzeAudio] is rejected with the
    message [FFprobe failed: ] followed by the text of stderr; what the
    probe printed on stdout and the state of the file play no part. *)
Theorem analyzeAudio_probe_failure (B : Buffer -> string) (J : string -> Exn json)
  (pf pi : value -> number) (ffprobe : string) (w : ProbeWorld) (file : string)
  (prefix rest : list ChildEvent) (code : option Z) :
  probe_child w ffprobe (probeArgs file) = (prefix ++ Close code :: rest)%list ->
  forallb isData prefix = true ->
  code_is_zero code = false ->
  probe_promise (analyzeAudio B J pf pi ffprobe w file)
  = Some (Rejected (new_Error ("FFprobe failed: " ++ stderrText B prefix))).
Proof.
  intros Hchild Hdata Hcode.
  destruct (analyzeAudio_close B J pf pi ffprobe w file prefix rest code Hchild Hdata)
    as [-> _].
  unfold onProbeClose. now rewrite Hcode.
Qed.

Lemma analyzeAudio_probe_failure_witness :
  probe_promise
    (Sample.analyzeAudio
       (mkProbeWorld
          (fun _ _ => [StderrData (Sample.ascii "take.wav: Invalid data"); Close (Some 1%Z)])
          (fun _ => ret 0%float))
       "/uploads/take.wav")
  = Some (Rejected (new_Error "FFprobe failed: take.wav: Invalid data")).
Proof.
  exact (analyzeAudio_probe_failure Sample.Buffer_toString Sample.JSON_parse
           Sample.parseFloat Sample.parseInt Sample.FFPROBE_PATH
           (mkProbeWorld
              (fun _ _ => [StderrData (Sample.ascii "take.wav: Invalid data");
                           Close (Some 1%Z)])
              (fun _ => ret 0%float))
           "/uploads/take.wav"
           [StderrData (Sample.ascii "take.wav: Invalid data")] [] (Some 1%Z)
           eq_refl eq_refl eq_refl).
Defined.

(** X7. [analyzeAudio] has no listener for [error]: when the first event of
    the probe that is not data is [error] (the probe could not be started),
    the promise is never settled and the error is left uncaught, whatever
    the probe emits afterwards. *)
Theorem analyzeAudio_launch_failure_uncaught (B : Buffer -> string)
  (J : string -> Exn json) (pf pi : value -> number) (ffprobe : string)
  (w : ProbeWorld) (file : string) (prefix rest : list ChildEvent) (e : Error) :
  probe_child w ffprobe (probeArgs file) = (prefix ++ ErrorEvent e :: rest)%list ->
  forallb isData prefix = true ->
  probe_promise (analyzeAudio B J pf pi ffprobe w file) = None
  /\ uncaught (analyzeAudio B J pf pi ffprobe w file) = Some e.
Proof. apply analyzeAudio_error. Qed.

Lemma analyzeAudio_launch_failure_uncaught_witness :
  probe_promise
    (Sample.analyzeAudio
       (mkProbeWorld
          (fun _ _ => [ErrorEvent (mkError "Error" "spawn ffprobe ENOENT");
                       Close (Some (-2)%Z)])
          (fun _ => ret 0%float))
       "/uploads/take.wav")
  = None.
Proof.
  exact (proj1 (analyzeAudio_launch_failure_uncaught Sample.Buffer_toString
                  Sample.JSON_parse Sample.parseFloat Sample.parseInt Sample.FFPROBE_PATH
                  (mkProbeWorld
                     (fun _ _ => [ErrorEvent (mkError "Error" "spawn ffprobe ENOENT");
                                  Close (Some (-2)%Z)])
                     (fun _ => ret 0%float))
                  "/uploads/take.wav" [] [Close (Some (-2)%Z)]
                  (mkError "Error" "spawn ffprobe ENOENT") eq_refl eq_refl)).
Defined.

Lemma readMetadata_fields (J : string -> Exn json) (pf pi : value -> number)
  (w : ProbeWorld) (file out : string) (md : AudioMetadata) :
  readMetadata J pf pi w file out = inr (Resolved md) ->
  exists members a name,
    J out = inr (JObject members)
    /\ call_find (lookup "streams" members) = inr (Some (JObject a))
    /\ getProp (lookup "format" members) "format_name" = inr name
    /\ md_bitDepth md = value_or (lookup "bits_per_sample" a) (Some (JNumber 16))
    /\ channels md = value_or (lookup "channels" a) (Some (JNumber 2))
    /\ md_format md = value_or name (Some (JString "unknown")).
Proof.
  unfold readMetadata. destruct (J out) as [e | data]; cbn [bind]; [discriminate|].
  intro H.
  destruct data as [| b | n | t | l | m]; cbn [getProp bind ret throw call_find] in H;
    try discriminate.
  destruct (call_find (lookup "streams" m)) as [e | [s|]] eqn:Hs; cbn [bind] in H;
    try discriminate.
  assert (Hobj : exists a, s = JObject a).
  { destruct (lookup "streams" m) as [[| b | n | t | items | m']|];
      cbn [call_find throw] in Hs; try discriminate.
    exact (find_audio_object _ _ Hs). }
  destruct Hobj as [a ->]. cbn [truthy negb] in H.
  destruct (fs_statSync w file); cbn [bind] in H; [discriminate|].
  destruct (getProp (lookup "format" m) "duration") as [e | d]; cbn [bind] in H;
    [discriminate|].
  cbn [getProp bind ret] in H.
  destruct (getProp (lookup "format" m) "format_name") as [e | name] eqn:Hname;
    cbn [bind] in H; [discriminate|].
  injection H as <-. exists m, a, name. cbn [md_bitDepth channels md_format].
  repeat split; first [assumption | reflexivity].
Qed.

(** X8. Whatever the probe emits, [analyzeAudio] resolves only after a
    [close] with code 0 that no [close] or [error] precedes, on output that
    parses to an object in whose [streams] an audio stream is found, and the
    metadata it resolves with has the [bits_per_sample] of that stream if
    it is truthy and 16 otherwise, its [channels] if truthy and 2 otherwise,
    the [format_name] of [format] if truthy and the string [unknown]
    otherwise: a value that is missing, zero, null or empty is replaced by
    the default, and none of the three fields is falsy. *)
Theorem analyzeAudio_defaults (B : Buffer -> string) (J : string -> Exn json)
  (pf pi : value -> number) (ffprobe : string) (w : ProbeWorld) (file : string)
  (md : AudioMetadata) :
  probe_promise (analyzeAudio B J pf pi ffprobe w file) = Some (Resolved md) ->
  exists prefix rest members a name,
    probe_child w ffprobe (probeArgs file) = (prefix ++ Close (Some 0%Z) :: rest)%list
    /\ forallb isData prefix = true
    /\ J (stdoutText B prefix) = inr (JObject members)
    /\ call_find (lookup "streams" members) = inr (Some (JObject a))
    /\ getProp (lookup "format" members) "format_name" = inr name
    /\ md_bitDepth md
       = (if truthy (lookup "bits_per_sample" a) then lookup "bits_per_sample" a
          else Some (JNumber 16))
    /\ channels md
       = (if truthy (lookup "channels" a) then lookup "channels" a
          else Some (JNumber 2))
    /\ md_format md = (if truthy name then name else Some (JString "unknown"))
    /\ truthy (md_bitDepth md) = true
    /\ truthy (channels md) = true
    /\ truthy (md_format md) = true.
Proof.
  intro Hmd.
  destruct (first_event (probe_child w ffprobe (probeArgs file)))
    as [Hall | (prefix & ev & rest & Hchild & Hdata & Hev)].
  { rewrite (analyzeAudio_data B J pf pi ffprobe w file Hall) in Hmd. discriminate. }
  destruct ev as [chunk | chunk | code | e]; try discriminate.
  2:{ destruct (analyzeAudio_error B J pf pi ffprobe w file prefix rest e Hchild Hdata)
        as [Hp _]. rewrite Hp in Hmd. discriminate. }
  destruct (analyzeAudio_close B J pf pi ffprobe w file prefix rest code Hchild Hdata)
    as [Hp _].
  rewrite Hp in Hmd. unfold onProbeClose in Hmd.
  destruct (code_is_zero code) eqn:Hcode; cbn [negb] in Hmd; [|discriminate].
  assert (code = Some 0%Z) as ->.
  { destruct code as [z|]; [|discriminate]. cbn in Hcode.
    apply Z.eqb_eq in Hcode. now subst. }
  cbn [output] in Hmd.
  destruct (readMetadata J pf pi w file (stdoutText B prefix)) as [e | s] eqn:Hr;
    [discriminate|].
  injection Hmd as ->.
  destruct (readMetadata_fields J pf pi w file _ md Hr)
    as (members & a & name & HJ & Hfind & Hname & Hb & Hc & Hf).
  destruct (readMetadata_defaults J pf pi w file _ md Hr) as (Tb & Tc & Tf).
  exists prefix, rest, members, a, name.
  repeat (split; [assumption|]). exact Tf.
Qed.

Lemma analyzeAudio_defaults_witness :
  exists prefix rest members a name,
    [Close (Some 0%Z)] = (prefix ++ Close (Some 0%Z) :: rest)%list
    /\ forallb isData prefix = true
    /\ @inr Error json Sample.movieData = inr (JObject members)
    /\ call_find (lookup "streams" members) = inr (Some (JObject a))
    /\ getProp (lookup "format" members) "format_name" = inr name
    /\ Some (JNumber 16)
       = (if truthy (lookup "bits_per_sample" a) then lookup "bits_per_sample" a
          else Some (JNumber 16))
    /\ Some (JNumber 2)
       = (if truthy (lookup "channels" a) then lookup "channels" a
          else Some (JNumber 2))
    /\ Some (JString "mov") = (if truthy name then name else Some (JString "unknown"))
    /\ truthy (Some (JNumber 16)) = true
    /\ truthy (Some (JNumber 2)) = true
    /\ truthy (Some (JString "mov")) = true.
Proof.
  exact (analyzeAudio_defaults Sample.Buffer_toString (fun _ => ret Sample.movieData)
           Sample.parseFloat Sample.parseInt Sample.FFPROBE_PATH
           (mkProbeWorld (fun _ _ => [Close (Some 0%Z)]) (fun _ => ret 4096%float))
           "/uploads/clip.mov"
           (mkAudioMetadata 12.5 48000 (Some (JNumber 16)) (Some (JNumber 2))
              (Some (JString "mov")) (Some (JString "aac")) 4096)
           eq_refl).
Defined.

(** X9. When the probe closes with code 0 and prints an object whose
    [streams] begin with objects that are not audio followed by an audio
    stream, and whose [format] is an object, and the size of the file can
    be read, [analyzeAudio] resolves: sample rate, bit depth, channels and
    codec are those of that first audio stream, duration and format name
    those of [format], each with its default, and the size is the one of
    the file. *)
Theorem analyzeAudio_first_audio_stream (B : Buffer -> string) (J : string -> Exn json)
  (pf pi : value -> number) (ffprobe : string) (w : ProbeWorld) (file : string)
  (prefix rest : list ChildEvent)
  (members : list (string * json)) (before : list (list (string * json)))
  (a : list (string * json)) (after : list json) (f : list (string * json))
  (size : number) :
  probe_child w ffprobe (probeArgs file) = (prefix ++ Close (Some 0%Z) :: rest)%list ->
  forallb isData prefix = true ->
  J (stdoutText B prefix) = inr (JObject members) ->
  lookup "streams" members = Some (JArray (map JObject before ++ JObject a :: after)) ->
  forallb (fun m => negb (is_audio (lookup "codec_type" m))) before = true ->
  is_audio (lookup "codec_type" a) = true ->
  lookup "format" members = Some (JObject f) ->
  fs_statSync w file = inr size ->
  probe_promise (analyzeAudio B J pf pi ffprobe w file)
  = Some (Resolved
            (mkAudioMetadata
               (pf (value_or (lookup "duration" f) (Some (JString "0"))))
               (pi (value_or (lookup "sample_rate" a) (Some (JString "44100"))))
               (value_or (lookup "bits_per_sample" a) (Some (JNumber 16)))
               (value_or (lookup "channels" a) (Some (JNumber 2)))
               (value_or (lookup "format_name" f) (Some (JString "unknown")))
               (lookup "codec_name" a)
               size)).
Proof.
  intros Hchild Hdata HJ Hstreams Hbefore Ha Hformat Hstat.
  destruct (analyzeAudio_close B J pf pi ffprobe w file prefix rest (Some 0%Z) Hchild Hdata)
    as [-> _].
  unfold onProbeClose, readMetadata. cbn [code_is_zero Z.eqb negb output].
  rewrite HJ. cbn [bind getProp ret]. rewrite Hstreams. cbn [call_find].
  rewrite (find_audio_first before a after Hbefore Ha).
  cbn [bind truthy negb]. rewrite Hstat. cbn [bind]. rewrite Hformat.
  reflexivity.
Qed.

Lemma analyzeAudio_first_audio_stream_witness :
  probe_promise
    (analyzeAudio Sample.Buffer_toString (fun _ => ret Sample.movieData)
       Sample.parseFloat Sample.parseInt Sample.FFPROBE_PATH
       (mkProbeWorld (fun _ _ => [Close (Some 0%Z)]) (fun _ => ret 4096%float))
       "/uploads/clip.mov")
  = Some (Resolved (mkAudioMetadata 12.5 48000 (Some (JNumber 16)) (Some (JNumber 2))
                      (Some (JString "mov")) (Some (JString "aac")) 4096)).
Proof.
  exact (analyzeAudio_first_audio_stream Sample.Buffer_toString
           (fun _ => ret Sample.movieData)
           Sample.parseFloat Sample.parseInt Sample.FFPROBE_PATH
           (mkProbeWorld (fun _ _ => [Close (Some 0%Z)]) (fun _ => ret 4096%float))
           "/uploads/clip.mov" [] []
           _ [[("codec_type", JString "video"); ("codec_name", JString "h264")]]
           _ [] _ 4096%float
           eq_refl eq_refl eq_refl eq_refl eq_refl eq_refl eq_refl eq_refl).
Defined.

(** ** analyzeAudioFile *)

Section FileProbeFacts.

Variable B : Buffer -> string.
Variable J : string -> Exn json.

Lemma onFileProbeEvent_data (prefix : list ChildEvent) : forall st,
  forallb isData prefix = true ->
  fp_uncaught st = None ->
  fold_left (onFileProbeEvent B J) prefix st
  = mkFileProbeState (fp_stdout st ++ stdoutText B prefix)
                     (fp_stderr st ++ stderrText B prefix) (fp_promise st) None.
Proof.
  induction prefix as [|ev prefix IH]; intros st H Hu.
  - simpl. rewrite !append_nil_r. destruct st; cbn in *. now subst.
  - cbn [forallb] in H. apply andb_prop in H as [Hev H].
    cbn [fold_left]. unfold onFileProbeEvent at 2. rewrite Hu.
    destruct ev; try discriminate;
      (rewrite IH; [|exact H|reflexivity]);
      cbn [fp_stdout fp_stderr fp_promise stdoutText stderrText];
      now rewrite append_assoc.
Qed.

Lemma onFileProbeEvent_settled (events : list ChildEvent) : forall st s,
  fp_promise st = Some s ->
  fp_promise (fold_left (onFileProbeEvent B J) events st) = Some s.
Proof.
  induction events as [|ev events IH]; intros st s H; [exact H|].
  cbn [fold_left]. apply IH. unfold onFileProbeEvent.
  destruct (fp_uncaught st); [exact H|].
  destruct ev; cbn [fp_promise]; try exact H.
  now rewrite H.
Qed.

Lemma analyzeAudioFile_close (w : ProbeWorld) (file : string)
  (prefix rest : list ChildEvent) (code : option Z) :
  probe_child w "ffprobe" (probeArgs file) = (prefix ++ Close code :: rest)%list ->
  forallb isData prefix = true ->
  fp_promise (analyzeAudioFile B J w file)
  = Some (onFileProbeClose J
            (mkFileProbeState (stdoutText B prefix) (stderrText B prefix) None None) code).
Proof.
  intros Hchild Hdata. unfold analyzeAudioFile. rewrite Hchild, fold_left_app.
  rewrite (onFileProbeEvent_data prefix (mkFileProbeState "" "" None None) Hdata eq_refl).
  cbn [fp_stdout fp_stderr fp_promise append fold_left].
  apply onFileProbeEvent_settled. reflexivity.
Qed.

End FileProbeFacts.

(** X10. When the probe writes to its streams and then closes,
    [analyzeAudioFile] settles its promise: with code 0 it resolves with
    whatever [JSON.parse] makes of stdout, audio stream or not, and rejects
    with [Failed to parse ffprobe output: ...] when the text does not parse;
    with another code it rejects with the code and the text of stderr. *)
Theorem analyzeAudioFile_settles (B : Buffer -> string) (J : string -> Exn json)
  (w : ProbeWorld) (file : string) (prefix rest : list ChildEvent) (code : option Z) :
  probe_child w "ffprobe" (probeArgs file) = (prefix ++ Close code :: rest)%list ->
  forallb isData prefix = true ->
  let p := fp_promise (analyzeAudioFile B J w file) in
  (code = Some 0%Z ->
   (forall data, J (stdoutText B prefix) = inr data -> p = Some (Resolved data))
   /\ (forall e, J (stdoutText B prefix) = inl e ->
                 p = Some (Rejected (new_Error ("Failed to parse ffprobe output: "
                                                ++ message e)))))
  /\ (code_is_zero code = false ->
      p = Some (Rejected (new_Error ("ffprobe failed with code " ++ code_toString code
                                     ++ ": " ++ stderrText B prefix)))).
Proof.
  intros Hchild Hdata p. subst p.
  rewrite (analyzeAudioFile_close B J w file prefix rest code Hchild Hdata).
  unfold onFileProbeClose; cbn [fp_stdout fp_stderr]. split.
  - intros ->. cbn [code_is_zero Z.eqb]. split.
    + intros data ->. reflexivity.
    + intros e ->. reflexivity.
  - intros ->. reflexivity.
Qed.

Lemma analyzeAudioFile_settles_witness :
  hasAudioStream Sample.videoData = false
  /\ fp_promise (analyzeAudioFile Sample.Buffer_toString Sample.JSON_parse
                   (Sample.probeWorld Sample.videoDocument None) "/uploads/notes.wav")
     = Some (Resolved Sample.videoData).
Proof.
  split; [reflexivity|].
  exact (proj1 (proj1 (analyzeAudioFile_settles Sample.Buffer_toString Sample.JSON_parse
                         (Sample.probeWorld Sample.videoDocument None) "/uploads/notes.wav"
                         [StdoutData (Sample.ascii (substring 0 5 Sample.videoDocument));
                          StdoutData (Sample.ascii
                            (substring 5 (String.length Sample.videoDocument)
                               Sample.videoDocument))]
                         [] (Some 0%Z) eq_refl eq_refl) eq_refl)
           Sample.videoData eq_refl).
Defined.

Lemma analyzeAudio_resolved_data (B : Buffer -> string) (J : string -> Exn json)
  (pf pi : value -> number) (ffprobe : string) (w : ProbeWorld) (file : string)
  (prefix rest : list ChildEvent) (md : AudioMetadata) :
  probe_child w ffprobe (probeArgs file) = (prefix ++ Close (Some 0%Z) :: rest)%list ->
  forallb isData prefix = true ->
  probe_promise (analyzeAudio B J pf pi ffprobe w file) = Some (Resolved md) ->
  exists data, J (stdoutText B prefix) = inr data /\ hasAudioStream data = true.
Proof.
  intros Hchild Hdata Hmd.
  destruct (analyzeAudio_close B J pf pi ffprobe w file prefix rest (Some 0%Z) Hchild Hdata)
    as [Hp _].
  rewrite Hp in Hmd. unfold onProbeClose in Hmd.
  cbn [code_is_zero Z.eqb negb output] in Hmd.
  destruct (readMetadata_cases J pf pi w file (stdoutText B prefix))
    as [[e He] | [He | (md' & data & size & He & HJ & Hyes & _)]];
    rewrite He in Hmd; try discriminate.
  now exists data.
Qed.

(** X11. On the same events of the probe, [analyzeAudioFile] accepts
    whatever [analyzeAudio] accepts: when [analyzeAudio] resolves,
    [analyzeAudioFile] resolves too, with a document that has an audio
    stream. *)
Theorem analyzeAudio_implies_analyzeAudioFile (B : Buffer -> string)
  (J : string -> Exn json) (pf pi : value -> number) (ffprobe : string)
  (w : ProbeWorld) (file : string) (md : AudioMetadata) :
  probe_child w ffprobe (probeArgs file) = probe_child w "ffprobe" (probeArgs file) ->
  probe_promise (analyzeAudio B J pf pi ffprobe w file) = Some (Resolved md) ->
  exists data,
    fp_promise (analyzeAudioFile B J w file) = Some (Resolved data)
    /\ hasAudioStream data = true.
Proof.
  intros Hsame Hmd.
  destruct (first_event (probe_child w ffprobe (probeArgs file)))
    as [Hall | (prefix & ev & rest & Hchild & Hdata & Hev)].
  - rewrite (analyzeAudio_data B J pf pi ffprobe w file Hall) in Hmd. discriminate.
  - destruct ev as [chunk | chunk | code | e]; try discriminate.
    + destruct (code_is_zero code) eqn:Hcode.
      * assert (code = Some 0%Z) as ->.
        { destruct code as [z|]; [|discriminate]. cbn in Hcode.
          apply Z.eqb_eq in Hcode. now subst. }
        destruct (analyzeAudio_resolved_data B J pf pi ffprobe w file prefix rest md
                    Hchild Hdata Hmd) as (data & HJ & Haudio).
        exists data. split; [|exact Haudio].
        rewrite Hsame in Hchild.
        rewrite (analyzeAudioFile_close B J w file prefix rest (Some 0%Z) Hchild Hdata).
        unfold onFileProbeClose; cbn [code_is_zero Z.eqb fp_stdout]. now rewrite HJ.
      * destruct (analyzeAudio_close B J pf pi ffprobe w file prefix rest code Hchild Hdata)
          as [Hp _].
        rewrite Hp in Hmd. unfold onProbeClose in Hmd. rewrite Hcode in Hmd. discriminate.
    + destruct (analyzeAudio_error B J pf pi ffprobe w file prefix rest e Hchild Hdata)
        as [Hp _]. rewrite Hp in Hmd. discriminate.
Qed.

Lemma analyzeAudio_implies_analyzeAudioFile_witness :
  exists data,
    fp_promise (analyzeAudioFile Sample.Buffer_toString Sample.JSON_parse
                  (Sample.probeWorld Sample.audioDocument (Some 1024%float))
                  "/uploads/take.wav")
    = Some (Resolved data)
    /\ hasAudioStream data = true.
Proof.
  exact (analyzeAudio_implies_analyzeAudioFile Sample.Buffer_toString Sample.JSON_parse
           Sample.parseFloat Sample.parseInt Sample.FFPROBE_PATH
           (Sample.probeWorld Sample.audioDocument (Some 1024%float))
           "/uploads/take.wav"
           (mkAudioMetadata 12.5 48000 (Some (JNumber 16)) (Some (JNumber 2))
              (Some (JString "wav")) None 1024)
           eq_refl eq_refl).
Defined.

(** ** AudioProcessor: the child of processAudio and mixAudioFiles *)

Section ProcessorFacts.

Variable B : Buffer -> string.

Lemma run_data (failure : string) (prefix : list ChildEvent) : forall st,
  forallb isData prefix = true ->
  AudioProcessor.uncaught st = None ->
  fold_left (AudioProcessor.onEvent B failure) prefix st
  = AudioProcessor.mkState (AudioProcessor.error st ++ stderrText B prefix)
                           (AudioProcessor.promise st) None.
Proof.
  induction prefix as [|ev prefix IH]; intros st H Hu.
  - simpl. rewrite append_nil_r. destruct st; cbn in *. now subst.
  - cbn [forallb] in H. apply andb_prop in H as [Hev H].
    cbn [fold_left]. unfold AudioProcessor.onEvent at 2. rewrite Hu.
    destruct ev; try discriminate.
    + rewrite IH; [|exact H|exact Hu]. reflexivity.
    + rewrite IH; [|exact H|reflexivity].
      cbn [AudioProcessor.error AudioProcessor.promise stderrText].
      now rewrite append_assoc.
Qed.

Lemma run_settled (failure : string) (events : list ChildEvent) : forall st s,
  AudioProcessor.promise st = Some s ->
  AudioProcessor.promise (fold_left (AudioProcessor.onEvent B failure) events st) = Some s.
Proof.
  induction events as [|ev events IH]; intros st s H; [exact H|].
  cbn [fold_left]. apply IH. unfold AudioProcessor.onEvent.
  destruct (AudioProcessor.uncaught st); [exact H|].
  destruct ev as [chunk | chunk | code | e]; cbn [AudioProcessor.promise]; try exact H.
  destruct (negb (code_is_zero code)); cbn [AudioProcessor.promise]; now rewrite H.
Qed.

Lemma run_uncaught (failure : string) (events : list ChildEvent) : forall st e,
  AudioProcessor.uncaught st = Some e ->
  fold_left (AudioProcessor.onEvent B failure) events st = st.
Proof.
  induction events as [|ev events IH]; intros st e H; [reflexivity|].
  cbn [fold_left]. unfold AudioProcessor.onEvent at 2. rewrite H. now apply (IH st e).
Qed.

(** The first event that is not data decides. *)
Lemma run_first_event (failure : string) (prefix rest : list ChildEvent) (ev : ChildEvent) :
  forallb isData prefix = true ->
  let st := AudioProcessor.run B failure (prefix ++ ev :: rest) in
  match ev with
  | Close code =>
      AudioProcessor.promise st
      = Some (if code_is_zero code then Resolved tt
              else Rejected (new_Error (failure ++ stderrText B prefix)))
  | ErrorEvent e =>
      AudioProcessor.promise st = None /\ AudioProcessor.uncaught st = Some e
  | _ => True
  end.
Proof.
  intros Hdata st. subst st. unfold AudioProcessor.run.
  rewrite fold_left_app.
  rewrite (run_data failure prefix (AudioProcessor.mkState "" None None) Hdata eq_refl).
  cbn [AudioProcessor.error AudioProcessor.promise append fold_left].
  destruct ev as [chunk | chunk | code | e]; try exact I.
  - apply run_settled. unfold AudioProcessor.onEvent; cbn [AudioProcessor.uncaught].
    destruct (code_is_zero code); reflexivity.
  - change (AudioProcessor.onEvent B failure
              (AudioProcessor.mkState (stderrText B prefix) None None) (ErrorEvent e))
      with (AudioProcessor.mkState (stderrText B prefix) None (Some e)).
    erewrite run_uncaught by reflexivity. now split.
Qed.

End ProcessorFacts.

(** X12. The first event of the child of [processAudio] that is not data
    decides: on [close] with code 0 the promise is resolved; on [close] with
    another code it is rejected with [FFmpeg failed: ] and the text of
    stderr; on [error] it is never settled and the error is left uncaught,
    as no listener is registered for it. *)
Theorem processAudio_first_event (N : number -> string) (B : Buffer -> string)
  (ffmpeg : string) (spawn : Spawn) (input output : string)
  (options : AudioProcessor.AudioProcessingOptions)
  (prefix rest : list ChildEvent) (ev : ChildEvent) :
  spawn ffmpeg (AudioProcessor.processArgs N input output options)
  = (prefix ++ ev :: rest)%list ->
  forallb isData prefix = true ->
  let st := AudioProcessor.final (AudioProcessor.processAudio N B ffmpeg spawn
                                    input output options) in
  match ev with
  | Close code =>
      AudioProcessor.promise st
      = Some (if code_is_zero code then Resolved tt
              else Rejected (new_Error ("FFmpeg failed: " ++ stderrText B prefix)))
  | ErrorEvent e =>
      AudioProcessor.promise st = None /\ AudioProcessor.uncaught st = Some e
  | _ => True
  end.
Proof.
  intros Hspawn Hdata st. subst st.
  unfold AudioProcessor.processAudio; cbn [AudioProcessor.final].
  rewrite Hspawn. exact (run_first_event B "FFmpeg failed: " prefix rest ev Hdata).
Qed.

Lemma processAudio_first_event_witness :
  AudioProcessor.promise
    (AudioProcessor.final
       (AudioProcessor.processAudio Sample.Number_toString Sample.Buffer_toString
          Sample.FFMPEG_PATH (Sample.spawn ["take.aiff: "; "Permission denied"] 1)
          "/uploads/take.aiff" "/uploads/take.wav" AudioProcessor.noOptions))
  = Some (Rejected (new_Error "FFmpeg failed: take.aiff: Permission denied")).
Proof.
  exact (processAudio_first_event Sample.Number_toString Sample.Buffer_toString
           Sample.FFMPEG_PATH (Sample.spawn ["take.aiff: "; "Permission denied"] 1)
           "/uploads/take.aiff" "/uploads/take.wav" AudioProcessor.noOptions
           [StderrData (Sample.ascii "take.aiff: ");
            StderrData (Sample.ascii "Permission denied")]
           [] (Close (Some 1%Z)) eq_refl eq_refl).
Defined.

(** X13. The first event of the child of [mixAudioFiles] that is not data
    decides: on [close] with code 0 the promise is resolved; on [close] with
    another code it is rejected with [Audio mixing failed: ] and the text of
    stderr; on [error] it is never settled and the error is left uncaught. *)
Theorem mixAudioFiles_first_event (N : number -> string) (B : Buffer -> string)
  (ffmpeg : string) (spawn : Spawn) (stemPaths : list string) (output : string)
  (volumes : list number) (prefix rest : list ChildEvent) (ev : ChildEvent) :
  spawn ffmpeg (AudioProcessor.mixArgs N stemPaths output volumes)
  = (prefix ++ ev :: rest)%list ->
  forallb isData prefix = true ->
  let st := AudioProcessor.final (AudioProcessor.mixAudioFiles N B ffmpeg spawn
                                    stemPaths output volumes) in
  match ev with
  | Close code =>
      AudioProcessor.promise st
      = Some (if code_is_zero code then Resolved tt
              else Rejected (new_Error ("Audio mixing failed: " ++ stderrText B prefix)))
  | ErrorEvent e =>
      AudioProcessor.promise st = None /\ AudioProcessor.uncaught st = Some e
  | _ => True
  end.
Proof.
  intros Hspawn Hdata st. subst st.
  unfold AudioProcessor.mixAudioFiles; cbn [AudioProcessor.final].
  rewrite Hspawn. exact (run_first_event B "Audio mixing failed: " prefix rest ev Hdata).
Qed.

Lemma mixAudioFiles_first_event_witness :
  AudioProcessor.promise
    (AudioProcessor.final
       (AudioProcessor.mixAudioFiles Sample.Number_toString Sample.Buffer_toString
          Sample.FFMPEG_PATH
          (fun _ _ => [ErrorEvent (mkError "Error" "spawn ffmpeg ENOENT")])
          ["/uploads/drums.wav"; "/uploads/bass.wav"] "/downloads/mix.wav" [0.5%float]))
  = None.
Proof.
  exact (proj1 (mixAudioFiles_first_event Sample.Number_toString Sample.Buffer_toString
                  Sample.FFMPEG_PATH
                  (fun _ _ => [ErrorEvent (mkError "Error" "spawn ffmpeg ENOENT")])
                  ["/uploads/drums.wav"; "/uploads/bass.wav"] "/downloads/mix.wav"
                  [0.5%float] [] [] (ErrorEvent (mkError "Error" "spawn ffmpeg ENOENT"))
                  eq_refl eq_refl)).
Defined.

(** ** processAudio and convertToWav: the arguments *)

(** X14. [convertToWav] spawns the engine once, with the input, a resampling
    to 44100 Hz, the sample format [s16] and the overwriting of the output,
    and with no audio filter and no trimming, whatever the two paths. *)
Theorem convertToWav_args (N : number -> string) (B : Buffer -> string)
  (ffmpeg : string) (spawn : Spawn) (input output : string) :
  AudioProcessor.spawned (AudioProcessor.convertToWav N B ffmpeg spawn input output)
  = [(ffmpeg, ["-i"; input; "-ar"; N 44100%float; "-sample_fmt"; "s16"; "-y"; output])].
Proof. reflexivity. Qed.

(** X15. For [processAudio] a volume that is zero, NaN or exactly 1 is the
    same as no volume at all: the arguments are those of the options
    without [volume], so no [volume=] filter is passed and a volume of 0
    does not silence the output. *)
Theorem processArgs_neutral_volume (N : number -> string) (input output : string)
  (options : AudioProcessor.AudioProcessingOptions) (v : number) :
  falsy v = true \/ (v =? 1)%float = true ->
  AudioProcessor.processArgs N input output (withVolume (Some v) options)
  = AudioProcessor.processArgs N input output (withVolume None options).
Proof.
  intro Hv.
  assert (E : AudioProcessor.audioFilters N (withVolume (Some v) options)
              = AudioProcessor.audioFilters N (withVolume None options)).
  { unfold AudioProcessor.audioFilters, withVolume;
      cbn [AudioProcessor.normalize AudioProcessor.fadeIn AudioProcessor.fadeOut
           AudioProcessor.volume AudioProcessor.truthyNumber].
    destruct Hv as [Hv | Hv].
    - now rewrite Hv.
    - unfold strict_neq. rewrite Hv. now rewrite andb_false_r. }
  unfold AudioProcessor.processArgs. now rewrite E.
Qed.

Lemma processArgs_neutral_volume_witness :
  AudioProcessor.processArgs Sample.Number_toString "/uploads/take.wav" "/uploads/out.wav"
    (AudioProcessor.mkOptions (Some true) (Some 0.5%float) None None (Some 0%float)
       None None)
  = ["-i"; "/uploads/take.wav"; "-af"; "loudnorm=I=-16:TP=-1.5:LRA=11,afade=t=in:d=0.5";
     "-y"; "/uploads/out.wav"].
Proof.
  exact (eq_trans
           (processArgs_neutral_volume Sample.Number_toString "/uploads/take.wav"
              "/uploads/out.wav"
              (AudioProcessor.mkOptions (Some true) (Some 0.5%float) None None None
                 None None)
              0%float (or_introl eq_refl))
           eq_refl).
Defined.

(** X16. [processAudio] knows two sample formats: a bit depth of 16 gives
    [s16] and every other truthy bit depth, 24 and 8 included, gives the
    arguments of a bit depth of 32, with [s32]. *)
Theorem processArgs_bit_depth (N : number -> string) (input output : string)
  (options : AudioProcessor.AudioProcessingOptions) (b : number) :
  falsy b = false ->
  (b =? 16)%float = false ->
  AudioProcessor.processArgs N input output (withBitDepth (Some b) options)
  = AudioProcessor.processArgs N input output (withBitDepth (Some 32%float) options)
  /\ In "s32" (AudioProcessor.processArgs N input output (withBitDepth (Some b) options)).
Proof.
  intros Hb H16.
  assert (E : AudioProcessor.processArgs N input output (withBitDepth (Some b) options)
              = AudioProcessor.processArgs N input output
                  (withBitDepth (Some 32%float) options)).
  { unfold AudioProcessor.processArgs, withBitDepth;
      cbn [AudioProcessor.bitDepth AudioProcessor.sampleRate AudioProcessor.trim
           AudioProcessor.truthyNumber].
    rewrite Hb, H16. reflexivity. }
  split; [exact E|]. rewrite E.
  unfold AudioProcessor.processArgs, withBitDepth;
    cbn [AudioProcessor.bitDepth AudioProcessor.sampleRate AudioProcessor.trim
         AudioProcessor.truthyNumber].
  change (falsy 32) with false. change (32 =? 16)%float with false. cbn [negb].
  destruct (AudioProcessor.trim options);
    repeat rewrite in_app_iff; cbn [In]; tauto.
Qed.

Lemma processArgs_bit_depth_witness :
  AudioProcessor.processArgs Sample.Number_toString "/uploads/take.flac" "/uploads/take.wav"
    (AudioProcessor.mkOptions None None None None None (Some 96000%float) (Some 24%float))
  = ["-i"; "/uploads/take.flac"; "-ar"; "96000"; "-sample_fmt"; "s32";
     "-y"; "/uploads/take.wav"].
Proof.
  exact (eq_trans
           (proj1 (processArgs_bit_depth Sample.Number_toString "/uploads/take.flac"
                     "/uploads/take.wav"
                     (AudioProcessor.mkOptions None None None None None
                        (Some 96000%float) None)
                     24%float eq_refl eq_refl))
           eq_refl).
Defined.

(** ** mixAudioFiles: the graph *)

Lemma prefix_occurs (c : ascii) (p s : string) :
  String.prefix (String c p) s = true -> occurs c s = true.
Proof.
  destruct s as [|c' s]; cbn [String.prefix occurs]; [discriminate|].
  destruct (ascii_dec c c') as [<- | _]; [|discriminate].
  intros _. now rewrite Ascii.eqb_refl.
Qed.

Lemma includes_occurs (c : ascii) (p s : string) :
  includes s (String c p) = true -> occurs c s = true.
Proof.
  induction s as [|c' s IH]; cbn [includes].
  - rewrite orb_false_r. apply prefix_occurs.
  - intro H. apply orb_prop in H as [H | H].
    + exact (prefix_occurs _ _ _ H).
    + cbn [occurs]. rewrite (IH H). now rewrite orb_true_r.
Qed.

Lemma join_cons_snoc (sep x : string) (l : list string) (y : string) :
  join sep ((x :: l) ++ [y]) = join sep (x :: l) ++ sep ++ y.
Proof.
  unfold join. revert x. induction l as [|a l IH]; intro x; [reflexivity|].
  change (((x :: a :: l) ++ [y]))%list with (x :: ((a :: l) ++ [y]))%list.
  change (String.concat sep (x :: (a :: l) ++ [y]))
    with (x ++ sep ++ String.concat sep ((a :: l) ++ [y])).
  rewrite IH.
  change (String.concat sep (x :: a :: l)) with (x ++ sep ++ String.concat sep (a :: l)).
  now rewrite !append_assoc.
Qed.

Section MixFacts.

Variable N : number -> string.

Lemma strict_neq_volumeOf (volumes : list number) (i : nat) :
  strict_neq (AudioProcessor.volumeOf volumes i) 1 = AudioProcessor.adjusted volumes i.
Proof.
  unfold AudioProcessor.volumeOf, AudioProcessor.adjusted.
  destruct (nth_error volumes i) as [v|]; [|reflexivity].
  unfold or_else. destruct (falsy v); reflexivity.
Qed.

Lemma mixInput_spec (volumes : list number) (i : nat) :
  AudioProcessor.mixInput N volumes i
  = if AudioProcessor.adjusted volumes i then printNode N (volumeNode volumes i)
    else printLabel (nat_toString i).
Proof.
  unfold AudioProcessor.mixInput. rewrite strict_neq_volumeOf.
  destruct (AudioProcessor.adjusted volumes i); [|reflexivity].
  unfold printNode, volumeNode, printLabel, join.
  cbn [node_inputs node_filters node_output map String.concat printFilter].
  generalize (nat_toString i) as idx; intro idx.
  repeat rewrite append_assoc; simpl; repeat rewrite append_assoc; reflexivity.
Qed.

Lemma includes_mixInput (volumes : list number) (i : nat) :
  includes (AudioProcessor.mixInput N volumes i) "volume"
  = AudioProcessor.adjusted volumes i.
Proof.
  unfold AudioProcessor.mixInput. rewrite strict_neq_volumeOf.
  destruct (AudioProcessor.adjusted volumes i).
  - replace ("[" ++ nat_toString i ++ "]volume=" ++ N (AudioProcessor.volumeOf volumes i)
             ++ "[v" ++ nat_toString i ++ "]")
      with (("[" ++ nat_toString i ++ "]") ++ "volume"
            ++ ("=" ++ N (AudioProcessor.volumeOf volumes i)
                ++ "[v" ++ nat_toString i ++ "]")).
    + apply includes_app.
    + generalize (nat_toString i) as idx; intro idx.
      repeat rewrite append_assoc; simpl; repeat rewrite append_assoc; reflexivity.
  - destruct (includes ("[" ++ nat_toString i ++ "]") "volume") eqn:E; [|reflexivity].
    apply includes_occurs in E. cbn [append occurs] in E.
    rewrite occurs_app, nat_toString_no_v in E. discriminate.
Qed.

Lemma volumeFilters_spec (volumes : list number) (indices : list nat) :
  filter (fun input => includes input "volume")
         (map (AudioProcessor.mixInput N volumes) indices)
  = map (printNode N)
        (map (volumeNode volumes) (filter (AudioProcessor.adjusted volumes) indices)).
Proof.
  induction indices as [|i indices IH]; [reflexivity|].
  cbn [map filter]. rewrite includes_mixInput, IH.
  destruct (AudioProcessor.adjusted volumes i) eqn:E; [|reflexivity].
  cbn [map]. now rewrite mixInput_spec, E.
Qed.

Lemma mixInputs_spec (volumes : list number) (indices : list nat) :
  map (fun i => if AudioProcessor.adjusted volumes i
                then "[v" ++ nat_toString i ++ "]" else "[" ++ nat_toString i ++ "]")
      indices
  = map printLabel (map (mixLabel volumes) indices).
Proof.
  rewrite map_map. apply map_ext. intro i. unfold mixLabel.
  destruct (AudioProcessor.adjusted volumes i); reflexivity.
Qed.

Lemma printNode_mixNode (n : nat) (volumes : list number) :
  printNode N (mixNode n volumes)
  = join "" (map printLabel (map (mixLabel volumes) (seq 0 n)))
    ++ "amix=inputs=" ++ nat_toString n ++ ":duration=longest[out]".
Proof.
  unfold printNode, mixNode, printLabel.
  cbn [node_inputs node_filters node_output map printFilter join String.concat].
  repeat rewrite append_assoc. reflexivity.
Qed.

Lemma mixFilterComplex_printGraph (stemPaths : list string) (volumes : list number) :
  AudioProcessor.mixFilterComplex N stemPaths volumes
  = printGraph N (mixGraph (length stemPaths) volumes).
Proof.
  unfold AudioProcessor.mixFilterComplex, printGraph, mixGraph.
  rewrite volumeFilters_spec, mixInputs_spec, map_app. cbn [map].
  rewrite <- printNode_mixNode.
  destruct (map (printNode N)
              (map (volumeNode volumes)
                 (filter (AudioProcessor.adjusted volumes) (seq 0 (length stemPaths)))))
    as [|x l] eqn:E.
  - reflexivity.
  - rewrite join_cons_snoc.
    assert (Hx : exists s, x = String "[" s).
    { destruct (filter (AudioProcessor.adjusted volumes) (seq 0 (length stemPaths)))
        as [|i is_]; [discriminate|].
      cbn [map] in E. injection E as <- _. eexists. reflexivity. }
    destruct Hx as [s ->].
    replace (String.eqb (join ";" (String "[" s :: l)) "") with false; [reflexivity|].
    unfold join. destruct l; reflexivity.
Qed.

Lemma mixLabel_adjusted (volumes : list number) (i : nat) :
  String.prefix "v" (mixLabel volumes i) = AudioProcessor.adjusted volumes i.
Proof.
  unfold mixLabel. destruct (AudioProcessor.adjusted volumes i); [apply prefix_app|].
  destruct (String.prefix "v" (nat_toString i)) eqn:E; [|reflexivity].
  apply prefix_occurs in E. rewrite nat_toString_no_v in E. discriminate.
Qed.

Lemma mixLabel_inj (volumes : list number) (i j : nat) :
  mixLabel volumes i = mixLabel volumes j -> i = j.
Proof.
  intro H.
  assert (E : AudioProcessor.adjusted volumes i = AudioProcessor.adjusted volumes j)
    by now rewrite <- !mixLabel_adjusted, H.
  unfold mixLabel in H. rewrite <- E in H.
  destruct (AudioProcessor.adjusted volumes i).
  - exact (label_inj "v" _ _ H).
  - exact (nat_toString_inj _ _ H).
Qed.

End MixFacts.

(** X17. The text that [mixAudioFiles] writes is the printed form of a
    graph with one volume node per stem whose volume is truthy and not 1,
    followed by one [amix] node with [duration=longest] that has one input
    per stem. The inputs are pairwise distinct, the input of stem [i] is
    [v<i>] when the stem has a volume node and the stem itself otherwise,
    and the labels [v<i>] that are read are exactly those that the volume
    nodes write. *)
Theorem mixAudioFiles_graph (N : number -> string) (stemPaths : list string)
  (volumes : list number) :
  let n := length stemPaths in
  let volumeNodes :=
    map (volumeNode volumes) (filter (AudioProcessor.adjusted volumes) (seq 0 n)) in
  let mix := mixNode n volumes in
  AudioProcessor.mixFilterComplex N stemPaths volumes
  = printGraph N (volumeNodes ++ [mix])
  /\ node_filters mix = [AMix n "longest"]
  /\ length (node_inputs mix) = n
  /\ NoDup (node_inputs mix)
  /\ (forall i, (i < n)%nat ->
       nth_error (node_inputs mix) i
       = Some (if AudioProcessor.adjusted volumes i
               then "v" ++ nat_toString i else nat_toString i))
  /\ filter (String.prefix "v") (node_inputs mix) = map node_output volumeNodes.
Proof.
  intros n volumeNodes mix. subst n volumeNodes mix.
  split; [apply mixFilterComplex_printGraph|].
  split; [reflexivity|].
  unfold mixNode; cbn [node_inputs].
  split; [now rewrite length_map, length_seq|].
  split.
  { apply NoDup_map_NoDup_ForallPairs; [|apply seq_NoDup].
    intros a b _ _ H. exact (mixLabel_inj _ _ _ H). }
  split.
  { intros i Hi. rewrite nth_error_map, nth_error_seq.
    apply Nat.ltb_lt in Hi. rewrite Hi. reflexivity. }
  rewrite filter_map_swap, map_map.
  rewrite (filter_ext _ (AudioProcessor.adjusted volumes))
    by (intro; apply mixLabel_adjusted).
  apply map_ext_in. intros i Hi. apply filter_In in Hi as [_ Hi].
  unfold mixLabel. now rewrite Hi.
Qed.

Example mix_three_stems :
  AudioProcessor.mixArgs Sample.Number_toString
    ["/uploads/drums.wav"; "/uploads/bass.wav"; "/uploads/pad.wav"] "/downloads/mix.wav"
    [0.5%float; 0%float; 1%float]
  = ["-i"; "/uploads/drums.wav"; "-i"; "/uploads/bass.wav"; "-i"; "/uploads/pad.wav";
     "-filter_complex"; "[0]volume=0.5[v0];[v0][1][2]amix=inputs=3:duration=longest[out]";
     "-map"; "[out]"; "-y"; "/downloads/mix.wav"].
Proof. reflexivity. Qed.

Section MixVolumes.

Variable N : number -> string.

Lemma nth_error_neutral (volumes : list number) (n i : nat) :
  (i < n)%nat ->
  nth_error (map (fun v => or_else v 1) (firstn n volumes)) i
  = option_map (fun v => or_else v 1) (nth_error volumes i).
Proof.
  intro Hi. rewrite nth_error_map. f_equal.
  revert n i Hi. induction volumes as [|v volumes IH]; intros n i Hi.
  - now rewrite firstn_nil.
  - destruct n as [|n]; [lia|]. destruct i as [|i]; [reflexivity|].
    cbn [firstn nth_error]. apply IH. lia.
Qed.

Lemma volumeOf_neutral (volumes : list number) (n i : nat) :
  (i < n)%nat ->
  AudioProcessor.volumeOf (map (fun v => or_else v 1) (firstn n volumes)) i
  = AudioProcessor.volumeOf volumes i.
Proof.
  intro Hi. unfold AudioProcessor.volumeOf. rewrite (nth_error_neutral _ _ _ Hi).
  destruct (nth_error volumes i) as [v|]; [|reflexivity].
  cbn [option_map]. unfold or_else. destruct (falsy v) eqn:E.
  - reflexivity.
  - now rewrite E.
Qed.

Lemma adjusted_neutral (volumes : list number) (n i : nat) :
  (i < n)%nat ->
  AudioProcessor.adjusted (map (fun v => or_else v 1) (firstn n volumes)) i
  = AudioProcessor.adjusted volumes i.
Proof.
  intro Hi. unfold AudioProcessor.adjusted. rewrite (nth_error_neutral _ _ _ Hi).
  destruct (nth_error volumes i) as [v|]; [|reflexivity].
  cbn [option_map]. unfold or_else. destruct (falsy v) eqn:E.
  - reflexivity.
  - now rewrite E.
Qed.

Lemma mixFilterComplex_neutral (stemPaths : list string) (volumes : list number) :
  AudioProcessor.mixFilterComplex N stemPaths
    (map (fun v => or_else v 1) (firstn (length stemPaths) volumes))
  = AudioProcessor.mixFilterComplex N stemPaths volumes.
Proof.
  unfold AudioProcessor.mixFilterComplex.
  set (n := length stemPaths).
  set (volumes' := map (fun v => or_else v 1) (firstn n volumes)).
  assert (E1 : map (AudioProcessor.mixInput N volumes') (seq 0 n)
               = map (AudioProcessor.mixInput N volumes) (seq 0 n)).
  { apply map_ext_in. intros i Hi. apply in_seq in Hi.
    unfold AudioProcessor.mixInput, volumes'. rewrite volumeOf_neutral by lia.
    reflexivity. }
  assert (E2 : map (fun i => if AudioProcessor.adjusted volumes' i
                             then "[v" ++ nat_toString i ++ "]"
                             else "[" ++ nat_toString i ++ "]") (seq 0 n)
               = map (fun i => if AudioProcessor.adjusted volumes i
                               then "[v" ++ nat_toString i ++ "]"
                               else "[" ++ nat_toString i ++ "]") (seq 0 n)).
  { apply map_ext_in. intros i Hi. apply in_seq in Hi.
    unfold volumes'. rewrite adjusted_neutral by lia. reflexivity. }
  now rewrite E1, E2.
Qed.

End MixVolumes.

(** X18. [mixAudioFiles] reads one volume per stem and cannot silence a
    stem: the arguments are unchanged when the volumes beyond the number of
    stems are dropped and every volume that is zero or NaN is replaced by
    1. *)
Theorem mixArgs_neutral_volumes (N : number -> string) (stemPaths : list string)
  (output : string) (volumes : list number) :
  AudioProcessor.mixArgs N stemPaths output
    (map (fun v => or_else v 1) (firstn (length stemPaths) volumes))
  = AudioProcessor.mixArgs N stemPaths output volumes.
Proof.
  unfold AudioProcessor.mixArgs. now rewrite mixFilterComplex_neutral.
Qed.

(** X19. With no stem path [mixAudioFiles] still spawns the engine, once,
    with no input file and a graph whose only node sums zero inputs,
    whatever the volumes. *)
Theorem mixAudioFiles_no_stem (N : number -> string) (B : Buffer -> string)
  (ffmpeg : string) (spawn : Spawn) (output : string) (volumes : list number) :
  AudioProcessor.spawned (AudioProcessor.mixAudioFiles N B ffmpeg spawn [] output volumes)
  = [(ffmpeg, ["-filter_complex"; "amix=inputs=0:duration=longest[out]";
               "-map"; "[out]"; "-y"; output])].
Proof. reflexivity. Qed.

(** ** runCommand and testFFmpegInstallation *)

Lemma onCommandEvent_data (prefix : list ChildEvent) : forall p,
  forallb isData prefix = true ->
  fold_left AudioProcessor.onCommandEvent prefix p = p.
Proof.
  induction prefix as [|ev prefix IH]; intros p H; [reflexivity|].
  cbn [forallb] in H. apply andb_prop in H as [Hev H].
  cbn [fold_left]. rewrite (IH _ H). now destruct ev.
Qed.

Lemma onCommandEvent_settled (events : list ChildEvent) : forall s,
  fold_left AudioProcessor.onCommandEvent events (Some s) = Some s.
Proof.
  induction events as [|ev events IH]; intro s; [reflexivity|].
  cbn [fold_left]. destruct ev as [chunk | chunk | code | e];
    cbn [AudioProcessor.onCommandEvent settle]; try apply IH.
  destruct (code_is_zero code); apply IH.
Qed.

(** The first [close] or [error] decides the promise of [runCommand]. *)
Lemma runCommand_find (spawn : Spawn) (command : string) (args : list string) :
  AudioProcessor.runCommand spawn command args
  = decided (find settles (spawn command args)).
Proof.
  unfold AudioProcessor.runCommand.
  generalize (spawn command args) as events.
  induction events as [|ev events IH]; [reflexivity|].
  cbn [find fold_left]. destruct ev as [chunk | chunk | code | e];
    cbn [settles isData negb AudioProcessor.onCommandEvent settle decided]; try exact IH.
  - destruct (code_is_zero code); apply onCommandEvent_settled.
  - apply onCommandEvent_settled.
Qed.

Lemma code_is_zero_iff (code : option Z) : code_is_zero code = true <-> code = Some 0%Z.
Proof.
  split; [|now intros ->].
  destruct code as [z|]; [|discriminate]. cbn. intro H.
  apply Z.eqb_eq in H. now subst.
Qed.

Lemma decided_cases (events : list ChildEvent) :
  find settles events = Some (Close (Some 0%Z))
  \/ find settles events = None
  \/ (exists ev e,
         find settles events = Some ev /\ Some ev <> Some (Close (Some 0%Z))
         /\ decided (Some ev) = Some (Rejected e)).
Proof.
  destruct (find settles events) as [[chunk | chunk | code | e]|] eqn:E.
  - apply find_some in E as [_ E]. discriminate.
  - apply find_some in E as [_ E]. discriminate.
  - cbn [decided]. destruct (code_is_zero code) eqn:Hc.
    + apply code_is_zero_iff in Hc. subst. now left.
    + right; right. do 2 eexists. split; [reflexivity|]. split.
      * intro H. injection H as ->. discriminate.
      * cbn [decided]. rewrite Hc. reflexivity.
  - right; right. do 2 eexists. split; [reflexivity|]. split; [discriminate|reflexivity].
  - right; now left.
Qed.

(** X20. The promise of [runCommand] is decided by the first [close] or
    [error] of the child and by nothing else: it is resolved exactly when
    that event is [close] with code 0, and it stays pending exactly when
    the child emits neither. *)
Theorem runCommand_resolved_iff (spawn : Spawn) (command : string) (args : list string) :
  (AudioProcessor.runCommand spawn command args = Some (Resolved tt)
   <-> find settles (spawn command args) = Some (Close (Some 0%Z)))
  /\ (AudioProcessor.runCommand spawn command args = None
      <-> find settles (spawn command args) = None).
Proof.
  rewrite runCommand_find.
  destruct (decided_cases (spawn command args))
    as [E | [E | (ev & e & E & Hn & He)]]; rewrite E; try rewrite He.
  - split; split; intro; try reflexivity; discriminate.
  - split; split; intro; try reflexivity; discriminate.
  - split; split; intro H; try discriminate; congruence.
Qed.

(** X21. [testFFmpegInstallation] returns [true] exactly when, for each of
    the two commands [ffmpeg -version] and [ffprobe -version], the first
    [close] or [error] of the child is [close] with code 0. It returns
    [false] exactly when for one of them that event is something else; in
    every other case it does not return. *)
Theorem testFFmpegInstallation_iff (ffmpeg ffprobe : string) (spawn : Spawn) :
  let first1 := find settles (spawn ffmpeg ["-version"]) in
  let first2 := find settles (spawn ffprobe ["-version"]) in
  (AudioProcessor.testFFmpegInstallation ffmpeg ffprobe spawn = Some true
   <-> first1 = Some (Close (Some 0%Z)) /\ first2 = Some (Close (Some 0%Z)))
  /\ (AudioProcessor.testFFmpegInstallation ffmpeg ffprobe spawn = Some false
      <-> (exists ev, first1 = Some ev /\ Some ev <> Some (Close (Some 0%Z)))
          \/ (exists ev, first2 = Some ev /\ Some ev <> Some (Close (Some 0%Z)))).
Proof.
  intros first1 first2. subst first1 first2.
  unfold AudioProcessor.testFFmpegInstallation. rewrite !runCommand_find.
  destruct (decided_cases (spawn ffmpeg ["-version"]))
    as [E1 | [E1 | (ev1 & e1 & E1 & Hn1 & He1)]]; rewrite E1; try rewrite He1;
    destruct (decided_cases (spawn ffprobe ["-version"]))
      as [E2 | [E2 | (ev2 & e2 & E2 & Hn2 & He2)]]; rewrite E2; try rewrite He2;
    cbn [decided code_is_zero Z.eqb];
    (split; split;
     [ intro H; try discriminate H; try (split; reflexivity); try (split; congruence)
     | intro H; try reflexivity; try (destruct H; congruence)
     | intro H; try discriminate H;
       try (left; eexists; split; [reflexivity|assumption]);
       try (right; eexists; split; [reflexivity|assumption])
     | intro H; try reflexivity;
       destruct H as [(ev & H & Hn) | (ev & H & Hn)]; congruence ]).
Qed.

Lemma testFFmpegInstallation_iff_witness :
  AudioProcessor.testFFmpegInstallation Sample.FFMPEG_PATH Sample.FFPROBE_PATH
    Sample.ffmpegOnly = Some false.
Proof.
  exact (proj2 (proj2 (testFFmpegInstallation_iff Sample.FFMPEG_PATH Sample.FFPROBE_PATH
                         Sample.ffmpegOnly))
           (or_intror (ex_intro _ (ErrorEvent (mkError "Error" "spawn ffprobe ENOENT"))
                         (conj eq_refl
                            (fun H => eq_ind (Some (ErrorEvent
                                                      (mkError "Error" "spawn ffprobe ENOENT")))
                                        (fun o => match o with
                                                  | Some (ErrorEvent _) => True
                                                  | _ => False
                                                  end) I _ H))))).
Defined.

(** ** checkSystemRequirements *)

Section RequirementsFacts.

Variable refused : string -> option Error.

Lemma ensureDirs_disk (dirs : list string) : forall present made0 p,
  (present p = true -> disk (ensureDirs refused dirs present made0) p = true)
  /\ (disk (ensureDirs refused dirs present made0) p = true ->
      present p = true \/ In p dirs).
Proof.
  induction dirs as [|dir dirs IH]; intros present made0 p; cbn [ensureDirs].
  - cbn [disk]. tauto.
  - destruct (present dir) eqn:Hdir; cbn [negb].
    + destruct (IH present made0 p) as [H1 H2]. cbn [In]. tauto.
    + unfold mkdirSync. destruct (refused dir) as [e|]; cbn [throw ret disk In].
      * tauto.
      * destruct (IH (fun q => String.eqb q dir || present q) (made0 ++ [dir])%list p)
          as [H1 H2].
        split.
        -- intro H. apply H1. rewrite H. apply orb_true_r.
        -- intro H. apply H2 in H as [H | H]; [|tauto].
           apply orb_prop in H as [H | H]; [|tauto].
           apply String.eqb_eq in H. subst. tauto.
Qed.

Lemma ensureDirs_resolved (dirs : list string) : forall present made0,
  checked (ensureDirs refused dirs present made0) = Some (Resolved tt) ->
  forall d, In d dirs -> disk (ensureDirs refused dirs present made0) d = true.
Proof.
  induction dirs as [|dir dirs IH]; intros present made0 H d Hd; [destruct Hd|].
  cbn [ensureDirs] in *.
  destruct (present dir) eqn:Hdir; cbn [negb] in *.
  - destruct Hd as [<- | Hd]; [|now apply IH].
    now apply ensureDirs_disk.
  - unfold mkdirSync in *. destruct (refused dir) as [e|]; cbn [throw ret] in *;
      [discriminate|].
    destruct Hd as [<- | Hd]; [|now apply IH].
    apply ensureDirs_disk. now rewrite String.eqb_refl.
Qed.

Lemma ensureDirs_made (dirs : list string) : forall present made0 d,
  In d (made (ensureDirs refused dirs present made0)) ->
  In d made0 \/ (In d dirs /\ present d = false).
Proof.
  induction dirs as [|dir dirs IH]; intros present made0 d; cbn [ensureDirs].
  - cbn [made]. tauto.
  - destruct (present dir) eqn:Hdir; cbn [negb].
    + intro H. apply IH in H. cbn [In]. tauto.
    + unfold mkdirSync. destruct (refused dir) as [e|]; cbn [throw ret made].
      * rewrite in_app_iff. cbn [In]. intros [H | [<- | []]]; tauto.
      * intro H. apply IH in H as [H | [H1 H2]].
        -- apply in_app_iff in H as [H | [<- | []]]; cbn [In]; tauto.
        -- apply orb_false_elim in H2 as [_ H2]. cbn [In]. tauto.
Qed.

End RequirementsFacts.

(** X22. [checkSystemRequirements] succeeds exactly when the API key is set
    to something other than the empty string and the placeholder, both
    commands of [testFFmpegInstallation] succeed, and each of the
    directories [uploads] and [downloads] is on disk already or can be
    made. When it succeeds, both directories are on disk. *)
Theorem checkSystemRequirements_succeeds_iff (ffmpeg ffprobe : string)
  (key : option string) (spawn : Spawn) (refused : string -> option Error)
  (present : string -> bool) :
  let r := checkSystemRequirements ffmpeg ffprobe key spawn refused present in
  (checked r = Some (Resolved tt)
   <-> (exists k, key = Some k /\ k <> "" /\ k <> "your-openai-api-key-here")
       /\ AudioProcessor.testFFmpegInstallation ffmpeg ffprobe spawn = Some true
       /\ (present "uploads" = true \/ refused "uploads" = None)
       /\ (present "downloads" = true \/ refused "downloads" = None))
  /\ (checked r = Some (Resolved tt) ->
      disk r "uploads" = true /\ disk r "downloads" = true).
Proof.
  intro r. subst r. unfold checkSystemRequirements.
  destruct key as [k|].
  2:{ split; [split|]; try discriminate. intros ((k & Hk & _) & _). discriminate. }
  destruct (String.eqb_spec k "") as [-> | Hk1]; cbn [orb].
  { split; [split|]; try discriminate. intros ((k & Hk & Hn & _) & _).
    injection Hk as <-. congruence. }
  destruct (String.eqb_spec k "your-openai-api-key-here") as [-> | Hk2].
  { split; [split|]; try discriminate. intros ((k & Hk & _ & Hn) & _).
    injection Hk as <-. congruence. }
  destruct (AudioProcessor.testFFmpegInstallation ffmpeg ffprobe spawn) as [[|]|].
  2,3: split; [split|]; try discriminate; intros (_ & H & _); discriminate.
  split.
  - cbn [ensureDirs]. unfold mkdirSync.
    destruct (present "uploads") eqn:Hu; cbn [negb];
      [|destruct (refused "uploads") eqn:Ru; cbn [throw ret]];
      try (change (String.eqb "downloads" "uploads") with false; cbn [orb]);
      try (destruct (present "downloads") eqn:Hd; cbn [negb];
           [|destruct (refused "downloads") eqn:Rd; cbn [throw ret]]);
      cbn [ensureDirs checked];
      (split;
       [ intro H; try discriminate H;
         (split; [exists k; now repeat split|]); repeat split; tauto
       | intros (_ & _ & [H1 | H1] & [H2 | H2]); try reflexivity; congruence ]).
  - intro H. split; apply (ensureDirs_resolved refused _ _ _ H); cbn [In]; tauto.
Qed.

Lemma checkSystemRequirements_succeeds_iff_witness :
  disk (checkSystemRequirements Sample.FFMPEG_PATH Sample.FFPROBE_PATH (Some "sk-test")
          (Sample.spawn [] 0) (fun _ => None) (fun p => String.eqb p "uploads"))
       "downloads" = true.
Proof.
  exact (proj2 (proj2 (checkSystemRequirements_succeeds_iff Sample.FFMPEG_PATH
                         Sample.FFPROBE_PATH (Some "sk-test") (Sample.spawn [] 0)
                         (fun _ => None) (fun p => String.eqb p "uploads")) eq_refl)).
Defined.

(** X23. Whatever its outcome, [checkSystemRequirements] only adds to the
    disk, and only what it is there to add: every directory that was on disk
    still is, every directory on disk afterwards was there before or is
    [uploads] or [downloads], and [mkdirSync] is called on nothing but those
    of the two that were missing. *)
Theorem checkSystemRequirements_disk (ffmpeg ffprobe : string)
  (key : option string) (spawn : Spawn) (refused : string -> option Error)
  (present : string -> bool) (p : string) :
  let r := checkSystemRequirements ffmpeg ffprobe key spawn refused present in
  (present p = true -> disk r p = true)
  /\ (disk r p = true -> present p = true \/ p = "uploads" \/ p = "downloads")
  /\ (In p (made r) -> present p = false /\ (p = "uploads" \/ p = "downloads")).
Proof.
  intro r. subst r. unfold checkSystemRequirements.
  destruct (match key with
            | Some k => String.eqb k "" || String.eqb k "your-openai-api-key-here"
            | None => true
            end); [cbn; tauto|].
  destruct (AudioProcessor.testFFmpegInstallation ffmpeg ffprobe spawn) as [[|]|];
    [|cbn; tauto|cbn; tauto].
  destruct (ensureDirs_disk refused ["uploads"; "downloads"] present [] p) as [H1 H2].
  split; [exact H1|]. split.
  - intro H. apply H2 in H. cbn [In] in H. intuition congruence.
  - intro H. apply ensureDirs_made in H as [[] | [H3 H4]]. cbn [In] in H3.
    intuition congruence.
Qed.
